(** * dir-merge: the session commands of [src/dir_merge/cli.py]

    A shallow embedding of the three commands ([merge], [finish], [status])
    and of the three session-file helpers, over an explicit model of what
    they act on: a file system, the session file, the process table, and the
    two external tools (git and rsync) that the commands drive through
    [subprocess.run].

    Layout: the data model, the operating-system and tool primitives, the
    error monad, the commands, and concrete scenarios come first; the lemmas
    about the primitives and the theorems about the commands follow. *)

From Stdlib Require Import DecimalString DecimalZ ZArith String Ascii.
From stdpp Require Import gmap strings list fin_maps fin_sets.

Open Scope string_scope.
Open Scope list_scope.
Open Scope Z_scope.

(* ===================================================================== *)
(** ** Paths *)
(* ===================================================================== *)

(** A path is the list of the components of an absolute path, root first:
    [["tmp"; "x"]] is [/tmp/x] and [[]] is the root.  Symbolic links are not
    modelled. *)
Abbreviation Path := (list string).

(** [strip d p]: the rest of [p] below [d], when [p] is [d] or lies below it. *)
Fixpoint strip (d p : Path) : option Path :=
  match d, p with
  | [], _ => Some p
  | x :: d', y :: p' => if decide (x = y) then strip d' p' else None
  | _ :: _, [] => None
  end.

(** [below q k]: [k] lies strictly below [q]. *)
Definition below (q k : Path) : bool :=
  match strip q k with Some (_ :: _) => true | _ => false end.

(** All the prefixes of a path, the path itself included. *)
Fixpoint inits (p : Path) : list Path :=
  match p with
  | [] => [[]]
  | c :: p' => [] :: map (cons c) (inits p')
  end.

(** The name that both tools treat as version-control metadata: rsync is run
    with [--exclude=.git], which matches an entry of that name at any depth
    (and everything below it), and git never tracks a path through [.git]. *)
Definition GIT : string := ".git".

Definition is_meta (q : Path) : bool := bool_decide (GIT ∈ q).

(** [str(path)] *)
Definition path_str (p : Path) : string :=
  match p with
  | [] => "/"
  | _ => String.concat "" (map (String.append "/") p)
  end.

(** The components of a path string: split at slashes, empty components
    dropped (so doubled and trailing slashes do not matter). *)
Fixpoint path_parts (cur s : string) : list string :=
  match s with
  | EmptyString => if decide (cur = "") then [] else [cur]
  | String c s' =>
      if decide (c = "/"%char)
      then (if decide (cur = "") then path_parts "" s' else cur :: path_parts "" s')
      else path_parts (cur +:+ String c "") s'
  end.

(** [Path(s)] for an absolute path string; pathlib also drops the components
    that are a single dot. *)
Definition Path_of_str (s : string) : Path :=
  filter (λ c, c ≠ ".") (path_parts "" s).

(** [Path.resolve()]: without symbolic links, what is left to do is to
    cancel each [..] against the component before it. *)
Definition resolve (p : Path) : Path :=
  fold_left (λ acc c, if decide (c = "..") then removelast acc else acc ++ [c]) p [].

(** [Path.name] *)
Definition path_name (p : Path) : string := List.last p "".

(** A component that [str] and [Path] carry back and forth unchanged: not
    empty, not a dot or two, and without a slash. *)
Definition wf_comp (c : string) : bool :=
  bool_decide (c ≠ "" ∧ c ≠ "." ∧ c ≠ "..")
  && negb (existsb (Ascii.eqb "/") (list_ascii_of_string c)).

Definition wf_path (p : Path) : bool := forallb wf_comp p.

(** Neither path is the other or lies below it. *)
Definition apart (a b : Path) : Prop := strip a b = None ∧ strip b a = None.

(* ===================================================================== *)
(** ** File system and repository state *)
(* ===================================================================== *)

(** What git keeps in its metadata directory, as far as the commands use it:
    the index (tracked paths, relative to the work tree, with the staged
    contents), the commits (newest first: message and tree), and the local
    configuration. *)
Record Repo := mkRepo {
  index : gmap Path string;
  commits : list (string * gmap Path string);
  config : gmap string string
}.

Definition empty_repo : Repo := mkRepo ∅ [] ∅.

Definition head_tree (r : Repo) : gmap Path string :=
  match commits r with
  | (_, t) :: _ => t
  | [] => ∅
  end.

(** An entry of the file system.  A metadata directory written by git is one
    node, [GitDir], that carries the repository state; it is a directory for
    [is_dir] and is copied and removed as a whole. *)
Inductive Node :=
  | File (data : string)
  | Dir
  | GitDir (r : Repo).

#[export] Instance Repo_eq_dec : EqDecision Repo.
Proof. solve_decision. Defined.

#[export] Instance Node_eq_dec : EqDecision Node.
Proof. solve_decision. Defined.

(** [tabulate keys f]: the finite map that is [f] on [keys]. *)
Definition tabulate {A : Type} (keys : gset Path) (f : Path → option A) : gmap Path A :=
  map_imap (λ p _, f p) (gset_to_gmap tt keys).

(** The paths of [X] below [from], moved below [to]. *)
Definition rebase (from to : Path) (X : gset Path) : gset Path :=
  set_omap (λ p, (app to) <$> strip from p) X.

(** Every prefix of every path of [X], below [d]. *)
Definition with_parents (d : Path) (X : gset Path) : gset Path :=
  set_bind (λ k, list_to_set (map (app d) (inits k)) : gset Path) X.

Definition is_dir (fs : gmap Path Node) (p : Path) : bool :=
  match fs !! p with
  | Some Dir | Some (GitDir _) => true
  | _ => false
  end.

Definition exists_ (fs : gmap Path Node) (p : Path) : bool :=
  bool_decide (is_Some (fs !! p)).

(** Every entry but the root has a directory as its parent. *)
Definition wf_fs (fs : gmap Path Node) : Prop :=
  map_Forall (λ p _, p = [] ∨ is_dir fs (removelast p) = true) fs.

#[export] Instance wf_fs_dec (fs : gmap Path Node) : Decision (wf_fs fs).
Proof. unfold wf_fs. apply _. Defined.

Definition is_file (fs : gmap Path Node) (p : Path) : bool :=
  match fs !! p with
  | Some (File _) => true
  | _ => false
  end.

(** [shutil.copytree(src, dst, dirs_exist_ok=True)] on the entries: every
    entry of [src] is written at the same place below [dst], whatever was
    there; what [dst] holds besides stays. *)
Definition copy_tree (src dst : Path) (fs : gmap Path Node) : gmap Path Node :=
  tabulate (dom fs ∪ rebase src dst (dom fs))
    (λ p, match strip dst p with
          | Some q => match fs !! (src ++ q) with
                      | Some n => Some n
                      | None => fs !! p
                      end
          | None => fs !! p
          end).

(** [rsync -a --delete --exclude=.git src/ dst/] on the entries: below [dst],
    every path that does not go through [.git] becomes what it is below
    [src] (present or absent); paths through [.git] are neither copied from
    [src] nor deleted from [dst]. *)
Definition mirror (src dst : Path) (fs : gmap Path Node) : gmap Path Node :=
  tabulate (dom fs ∪ rebase src dst (dom fs) ∪ {[dst]})
    (λ p, match strip dst p with
          | Some [] => Some Dir
          | Some q => if is_meta q then fs !! p else fs !! (src ++ q)
          | None => fs !! p
          end).

(** [shutil.rmtree(p)] on the entries. *)
Definition remove_tree (p : Path) (fs : gmap Path Node) : gmap Path Node :=
  tabulate (dom fs)
    (λ p', match strip p p' with Some _ => None | None => fs !! p' end).

(** [Path.mkdir(parents=True, exist_ok=True)] on the entries. *)
Definition make_dirs (p : Path) (fs : gmap Path Node) : gmap Path Node :=
  tabulate (dom fs ∪ list_to_set (inits p))
    (λ p', match fs !! p' with
           | Some n => Some n
           | None => if bool_decide (is_Some (strip p' p)) then Some Dir else None
           end).

(** The repository whose work tree is [d]. *)
Definition repo_at (fs : gmap Path Node) (d : Path) : option Repo :=
  match fs !! (d ++ [GIT]) with
  | Some (GitDir r) => Some r
  | _ => None
  end.

Definition set_repo (d : Path) (r : Repo) (fs : gmap Path Node) : gmap Path Node :=
  <[d ++ [GIT] := GitDir r]> fs.

(** The regular files of the work tree [d], by relative path; paths through
    [.git] are left out. *)
Definition worktree_files (d : Path) (fs : gmap Path Node) : gmap Path string :=
  tabulate (rebase d [] (dom fs))
    (λ q, if is_meta q then None
          else match fs !! (d ++ q) with
               | Some (File c) => Some c
               | _ => None
               end).

(** What the index says stands at the relative path [q]: a tracked file, a
    directory on the way to one, or nothing. *)
Definition tracked_node (idx : gmap Path string) (q : Path) : option Node :=
  match idx !! q with
  | Some c => Some (File c)
  | None =>
      if bool_decide (set_Exists (λ k, below q k = true) (dom idx))
      then Some Dir else None
  end.

(** [git checkout -- .] on the entries: every tracked path of the work tree
    is put back to the index version, deleted files included. *)
Definition checkout_index (d : Path) (idx : gmap Path string)
    (fs : gmap Path Node) : gmap Path Node :=
  tabulate (dom fs ∪ with_parents d (dom idx))
    (λ p, match strip d p with
          | Some [] => fs !! p
          | Some q => if is_meta q then fs !! p
                      else match tracked_node idx q with
                           | Some n => Some n
                           | None => fs !! p
                           end
          | None => fs !! p
          end).

(** [git clean -fd] on the entries: every untracked file and directory of
    the work tree goes; paths through [.git] stay. *)
Definition clean_untracked (d : Path) (idx : gmap Path string)
    (fs : gmap Path Node) : gmap Path Node :=
  tabulate (dom fs)
    (λ p, match strip d p with
          | Some [] => fs !! p
          | Some q => if is_meta q then fs !! p
                      else match tracked_node idx q with
                           | Some _ => fs !! p
                           | None => None
                           end
          | None => fs !! p
          end).

(** The short status of the work tree: one line per path that differs
    between the last commit, the index and the work tree, with git's two
    status letters ([??] for an untracked file).  Untracked files are listed
    one by one, and the lines come in the order of the underlying finite
    set. *)
Definition status_code (h i t : option string) : option string :=
  match i, t with
  | None, Some _ => Some "??"
  | _, _ =>
      let X := match h, i with
               | None, Some _ => "A"
               | Some _, None => "D"
               | Some a, Some b => if decide (a = b) then " " else "M"
               | None, None => " "
               end in
      let Y := match i, t with
               | Some _, None => "D"
               | Some a, Some b => if decide (a = b) then " " else "M"
               | _, _ => " "
               end in
      if decide (X = " " ∧ Y = " ") then None else Some (X +:+ Y)
  end.

Definition newline : string := String (ascii_of_nat 10) "".

Definition status_short (r : Repo) (wt : gmap Path string) : string :=
  String.concat ""
    (omap (λ q, (λ c, c +:+ " " +:+ String.concat "/" q +:+ newline)
                <$> status_code (head_tree r !! q) (index r !! q) (wt !! q))
          (elements (dom (head_tree r) ∪ dom (index r) ∪ dom wt))).

(* ===================================================================== *)
(** ** The world and the environment of a command *)
(* ===================================================================== *)

(** What outlives a command.  [session] is the content of [STATE_FILE]
    ([None]: the file does not exist); [CONFIG_DIR] lies outside every tree
    the commands copy, mirror or remove, so the file is kept apart from
    [files].  [procs] are the live process ids. *)
Record World := mkWorld {
  files : gmap Path Node;
  session : option (gmap string string);
  procs : gset Z
}.

#[export] Instance World_eq_dec : EqDecision World.
Proof. solve_decision. Defined.

Definition set_files (f : gmap Path Node) (w : World) : World :=
  mkWorld f (session w) (procs w).
Definition set_session (s : option (gmap string string)) (w : World) : World :=
  mkWorld (files w) s (procs w).
Definition set_procs (p : gset Z) (w : World) : World :=
  mkWorld (files w) (session w) p.

(** The world once the process [pid] is gone. *)
Definition reap (pid : Z) (w : World) : World := set_procs (procs w ∖ {[pid]}) w.

(** What the operating system and the user decide for one invocation: the
    working directory, the environment variables, the directory and the
    candidate names of [tempfile], which programs can be executed, the
    process id a spawned program gets ([None]: it cannot be started), and
    what happens to the world while the spawned shell runs. *)
Record Env := mkEnv {
  cwd : Path;
  environ : gmap string string;
  tmpdir : Path;
  tmp_names : list string;
  installed : string → bool;
  spawn : string → option Z;
  user : World → World
}.

Inductive Stream := Stdout | Stderr.

#[export] Instance Stream_eq_dec : EqDecision Stream.
Proof. solve_decision. Defined.

(** The state of a running command: the world and what was printed so far. *)
Record Sys := mkSys {
  world : World;
  console : list (Stream * string)
}.

#[export] Instance Sys_eq_dec : EqDecision Sys.
Proof. solve_decision. Defined.

Definition on_world (f : World → World) (s : Sys) : Sys :=
  mkSys (f (world s)) (console s).

(** The external commands, each standing for one argument vector. *)
Inductive Cmd :=
  | git_init
  | git_config (key value : string)
  | git_add_all
  | git_commit (msg : string)
  | git_checkout_all
  | git_clean_fd
  | git_status_short
  | rsync_mirror (src dst : Path).

Definition argv (c : Cmd) : list string :=
  match c with
  | git_init => ["git"; "init"]
  | git_config k v => ["git"; "config"; k; v]
  | git_add_all => ["git"; "add"; "."]
  | git_commit m => ["git"; "commit"; "-m"; m]
  | git_checkout_all => ["git"; "checkout"; "--"; "."]
  | git_clean_fd => ["git"; "clean"; "-fd"]
  | git_status_short => ["git"; "status"; "--short"]
  | rsync_mirror s d =>
      ["rsync"; "-av"; "--delete"; "--exclude=.git"; path_str s +:+ "/"; path_str d +:+ "/"]
  end.

Definition program (c : Cmd) : string := hd "" (argv c).

(** The exceptions the commands can meet. *)
Inductive Exn :=
  | CalledProcessError (cmd : list string) (returncode : Z)
  | FileNotFoundError (what : string)
  | NotADirectoryError (what : string)
  | FileExistsError (what : string)
  | ProcessLookupError
  | ValueError (literal : string)
  | KeyError (key : string).

#[export] Instance Exn_eq_dec : EqDecision Exn.
Proof. solve_decision. Defined.

Definition str_of_Z (z : Z) : string := NilZero.string_of_int (Z.to_int z).

(** [int(s)] on the literals [str] produces: digits with an optional minus
    sign. *)
Definition int_of_str (s : string) : option Z := Z.of_int <$> NilZero.int_of_string s.

Definition quoted (s : string) : string := "'" +:+ s +:+ "'".

(** [str(e)] *)
Definition exn_str (e : Exn) : string :=
  match e with
  | CalledProcessError cmd rc =>
      "Command '[" +:+ String.concat ", " (map quoted cmd)
        +:+ "]' returned non-zero exit status " +:+ str_of_Z rc +:+ "."
  | FileNotFoundError p =>
      if decide (p = "") then "[Errno 2] No such file or directory"
      else "[Errno 2] No such file or directory: " +:+ quoted p
  | NotADirectoryError p => "[Errno 20] Not a directory: " +:+ quoted p
  | FileExistsError p => "[Errno 17] File exists: " +:+ quoted p
  | ProcessLookupError => "[Errno 3] No such process"
  | ValueError l => "invalid literal for int() with base 10: " +:+ quoted l
  | KeyError k => quoted k
  end.

(* ===================================================================== *)
(** ** The external tools *)
(* ===================================================================== *)

Definition update_repo (d : Path) (f : Repo → Repo) (w : World) : Z * string * World :=
  match repo_at (files w) d with
  | Some r => (0, "", set_files (set_repo d (f r) (files w)) w)
  | None => (128, "", w)
  end.

(** What running the command [c] in the directory [d] returns (exit status
    and standard output) and does to the world.  git looks for its
    repository in [d] only, ignore rules and nested repositories are not
    modelled; a commit needs a configured identity and something to commit;
    [checkout -- .] needs a tracked path. *)
Definition tool (c : Cmd) (d : Path) (w : World) : Z * string * World :=
  match c with
  | git_init =>
      match files w !! (d ++ [GIT]) with
      | Some (GitDir _) => (0, "", w)
      | Some (File _) => (128, "", w)
      | Some Dir | None => (0, "", set_files (set_repo d empty_repo (files w)) w)
      end
  | git_config k v =>
      update_repo d (λ r, mkRepo (index r) (commits r) (<[k := v]> (config r))) w
  | git_add_all =>
      update_repo d (λ r, mkRepo (worktree_files d (files w)) (commits r) (config r)) w
  | git_commit m =>
      match repo_at (files w) d with
      | Some r =>
          if bool_decide (is_Some (config r !! "user.email") ∧ is_Some (config r !! "user.name"))
          then
            if decide (index r = head_tree r) then (1, "", w)
            else (0, "", set_files (set_repo d (mkRepo (index r) ((m, index r) :: commits r)
                                                     (config r)) (files w)) w)
          else (128, "", w)
      | None => (128, "", w)
      end
  | git_checkout_all =>
      match repo_at (files w) d with
      | Some r =>
          if decide (index r = ∅) then (1, "", w)
          else (0, "", set_files (checkout_index d (index r) (files w)) w)
      | None => (128, "", w)
      end
  | git_clean_fd =>
      match repo_at (files w) d with
      | Some r => (0, "", set_files (clean_untracked d (index r) (files w)) w)
      | None => (128, "", w)
      end
  | git_status_short =>
      match repo_at (files w) d with
      | Some r => (0, status_short r (worktree_files d (files w)), w)
      | None => (128, "", w)
      end
  | rsync_mirror src dst =>
      if negb (is_dir (files w) src) then (23, "", w)
      else if is_dir (files w) dst
              || (negb (exists_ (files w) dst) && is_dir (files w) (removelast dst))
           then (0, "", set_files (mirror src dst (files w)) w)
           else (11, "", w)
  end.

(* ===================================================================== *)
(** ** Running Python code: results, exceptions, exit *)
(* ===================================================================== *)

(** How a piece of code ends: with a value, with [sys.exit(code)], or with an
    exception. *)
Inductive Res (A : Type) :=
  | Ret (a : A)
  | Exit (code : Z)
  | Raise (e : Exn).
Arguments Ret {A} a.
Arguments Exit {A} code.
Arguments Raise {A} e.

#[export] Instance Res_eq_dec {A : Type} `{EqDecision A} : EqDecision (Res A).
Proof. solve_decision. Defined.

Definition M (A : Type) : Type := Env → Sys → Res A * Sys.

#[export] Instance M_ret : MRet M := λ A a env s, (Ret a, s).

#[export] Instance M_bind : MBind M := λ A B k m env s,
  match m env s with
  | (Ret a, s') => k a env s'
  | (Exit c, s') => (Exit c, s')
  | (Raise e, s') => (Raise e, s')
  end.

Definition sys_exit {A : Type} (code : Z) : M A := λ env s, (Exit code, s).

Definition raise {A : Type} (e : Exn) : M A := λ env s, (Raise e, s).

(** [try: body except ...: handler]: [handlers e] is the handler of the first
    clause that catches [e].  [sys.exit] is not an [Exception] and passes. *)
Definition try_except {A : Type} (body : M A) (handlers : Exn → option (M A)) : M A :=
  λ env s,
    match body env s with
    | (Raise e, s') =>
        match handlers e with
        | Some h => h env s'
        | None => (Raise e, s')
        end
    | r => r
    end.

Definition print (msg : string) : M unit :=
  λ env s, (Ret tt, mkSys (world s) (console s ++ [(Stdout, msg)])).

Definition eprint (msg : string) : M unit :=
  λ env s, (Ret tt, mkSys (world s) (console s ++ [(Stderr, msg)])).

(** [d[k]] *)
Definition dict_get (d : gmap string string) (k : string) : M string :=
  match d !! k with
  | Some v => mret v
  | None => raise (KeyError k)
  end.

(** [Path.cwd()]: the operating system reports the working directory only
    while it exists; in a directory that has been removed the call raises
    [FileNotFoundError] (without a file name). *)
Definition Path_cwd : M Path := λ env s,
  if is_dir (files (world s)) (cwd env)
  then (Ret (cwd env), s)
  else (Raise (FileNotFoundError ""), s).

(** [p.is_dir()] and [p.exists()] *)
Definition Path_is_dir (p : Path) : M bool := λ env s, (Ret (is_dir (files (world s)) p), s).
Definition Path_exists (p : Path) : M bool := λ env s, (Ret (exists_ (files (world s)) p), s).

(** [p.mkdir(parents=True, exist_ok=True)]: fails when [p] or a directory on
    the way to it is a regular file. *)
Definition mkdir_parents (p : Path) : M unit := λ env s,
  match files (world s) !! p with
  | Some (File _) => (Raise (FileExistsError (path_str p)), s)
  | _ =>
      if existsb (is_file (files (world s))) (inits p)
      then (Raise (NotADirectoryError (path_str p)), s)
      else (Ret tt, on_world (λ w, set_files (make_dirs p (files w)) w) s)
  end.

(** [tempfile.mkdtemp(prefix=...)]: the first candidate name that is free in
    the temporary directory. *)
Definition mkdtemp (prefix : string) : M Path := λ env s,
  if negb (is_dir (files (world s)) (tmpdir env))
  then (Raise (FileNotFoundError (path_str (tmpdir env))), s)
  else
    match List.find (λ n, negb (exists_ (files (world s)) (tmpdir env ++ [prefix +:+ n])))
                    (tmp_names env) with
    | Some n =>
        let d := tmpdir env ++ [prefix +:+ n] in
        (Ret d, on_world (λ w, set_files (<[d := Dir]> (files w)) w) s)
    | None => (Raise (FileExistsError (path_str (tmpdir env))), s)
    end.

(** [shutil.copytree(src, dst, dirs_exist_ok=True)] *)
Definition copytree (src dst : Path) : M unit := λ env s,
  match files (world s) !! src with
  | None => (Raise (FileNotFoundError (path_str src)), s)
  | Some (File _) => (Raise (NotADirectoryError (path_str src)), s)
  | Some _ => (Ret tt, on_world (λ w, set_files (copy_tree src dst (files w)) w) s)
  end.

(** [shutil.rmtree(p)]: no [ignore_errors], so a missing [p] is an error. *)
Definition rmtree (p : Path) : M unit := λ env s,
  match files (world s) !! p with
  | None => (Raise (FileNotFoundError (path_str p)), s)
  | Some (File _) => (Raise (NotADirectoryError (path_str p)), s)
  | Some _ => (Ret tt, on_world (λ w, set_files (remove_tree p (files w)) w) s)
  end.

(** [subprocess.run(argv, cwd=dir, check=check, capture_output=True)]: the
    exit status and the captured standard output.  Starting the program
    raises when it is not installed or when a [dir] is given that is not a
    directory (without [dir] it runs where the command runs); with [check],
    a non-zero exit status raises [CalledProcessError]. *)
Definition subprocess_run (c : Cmd) (dir : option Path) (check : bool) : M (Z * string) :=
  λ env s,
    let d := default (cwd env) dir in
    if negb (installed env (program c))
    then (Raise (FileNotFoundError (program c)), s)
    else if bool_decide (is_Some dir) && negb (is_dir (files (world s)) d)
    then (Raise (if exists_ (files (world s)) d
                 then NotADirectoryError (path_str d)
                 else FileNotFoundError (path_str d)), s)
    else
      let '(rc, out, w') := tool c d (world s) in
      if check && negb (rc =? 0)
      then (Raise (CalledProcessError (argv c) rc), mkSys w' (console s))
      else (Ret (rc, out), mkSys w' (console s)).

(** [os.environ.get(k, dflt)] *)
Definition environ_get (k dflt : string) : M string :=
  λ env s, (Ret (default dflt (environ env !! k)), s).

(** [subprocess.Popen(prog, cwd=dir)]: the process id of the new process. *)
Definition Popen (prog : string) (dir : Path) : M Z := λ env s,
  if negb (is_dir (files (world s)) dir)
  then (Raise (FileNotFoundError (path_str dir)), s)
  else
    match spawn env prog with
    | Some pid => (Ret pid, on_world (λ w, set_procs ({[pid]} ∪ procs w) w) s)
    | None => (Raise (FileNotFoundError prog), s)
    end.

(** [process.wait()]: returns when the process is gone; in between, the
    user of the shell has done to the world what [user] says. *)
Definition Popen_wait (pid : Z) : M unit := λ env s,
  (Ret tt, on_world (λ w, reap pid (user env w)) s).

(** [os.kill(pid, 9)] *)
Definition os_kill (pid : Z) : M unit := λ env s,
  if bool_decide (pid ∈ procs (world s))
  then (Ret tt, on_world (reap pid) s)
  else (Raise ProcessLookupError, s).

(** [int(state.get("shell_pid", -1))] *)
Definition int_of_get (d : gmap string string) (k : string) (dflt : Z) : M Z :=
  match d !! k with
  | None => mret dflt
  | Some v =>
      match int_of_str v with
      | Some z => mret z
      | None => raise (ValueError v)
      end
  end.

(** The end of the process: the exit status, what was printed, and the world
    it leaves.  An exception nobody caught ends the process with status 1. *)
Definition run (m : M unit) (env : Env) (w : World) : Z * list (Stream * string) * World :=
  match m env (mkSys w []) with
  | (Ret _, s) => (0, console s, world s)
  | (Exit c, s) => (c, console s, world s)
  | (Raise e, s) => (1, console s ++ [(Stderr, "Traceback (most recent call last): " +:+ exn_str e)], world s)
  end.

(** [frame m]: however [m] ends, the world is what it was. *)
Definition frame {A : Type} (m : M A) : Prop :=
  ∀ env s r s', m env s = (r, s') → world s' = world s.

(** [ensures env P m Q E X]: started in a world with [P], the code [m] ends
    with a value [a] in a world with [Q a], or with [sys.exit(c)] in a world
    with [E c], or with an exception [e] in a world with [X e]. *)
Definition ensures {A : Type} (env : Env) (P : World → Prop) (m : M A)
    (Q : A → World → Prop) (E : Z → World → Prop) (X : Exn → World → Prop) : Prop :=
  ∀ s, P (world s) →
    match m env s with
    | (Ret a, s') => Q a (world s')
    | (Exit c, s') => E c (world s')
    | (Raise e, s') => X e (world s')
    end.

(* ===================================================================== *)
(** ** The session file *)
(* ===================================================================== *)

(** [load_session_state()] *)
Definition load_session_state : M (gmap string string) := λ env s,
  match session (world s) with
  | Some st => (Ret st, s)
  | None => (eprint "Error: No active merge session" ;; sys_exit 1) env s
  end.

(** [save_session_state(state)] *)
Definition save_session_state (state : gmap string string) : M unit :=
  λ env s, (Ret tt, on_world (set_session (Some state)) s).

(** [clear_session_state()] *)
Definition clear_session_state : M unit := λ env s,
  match session (world s) with
  | Some _ => (Ret tt, on_world (set_session None) s)
  | None => (Ret tt, s)
  end.

(* ===================================================================== *)
(** ** The commands *)
(* ===================================================================== *)

(** The arguments of [merge]: [source], [target] and the optional
    [--output], as absolute paths. *)
Record MergeArgs := mkMergeArgs {
  source : Path;
  target : Path;
  output : option Path
}.

(** The two [except] clauses that close the [try] of [merge_command] and of
    [finish_command]. *)
Definition report_and_exit (e : Exn) : option (M unit) :=
  Some match e with
       | CalledProcessError _ _ =>
           eprint ("Error: Command failed: " +:+ exn_str e) ;; sys_exit 1
       | _ =>
           eprint ("Error: " +:+ exn_str e) ;; sys_exit 1
       end.

(** [merge_command(args)] *)
Definition merge_command (args : MergeArgs) : M unit :=
  src_ok ← Path_is_dir (source args);
  (if negb src_ok
   then eprint ("Error: source directory '" +:+ path_str (source args) +:+ "' does not exist") ;;
        sys_exit 1
   else mret tt) ;;
  tgt_ok ← Path_is_dir (target args);
  (if negb tgt_ok
   then eprint ("Error: target directory '" +:+ path_str (target args) +:+ "' does not exist") ;;
        sys_exit 1
   else mret tt) ;;
  let source_dir := resolve (source args) in
  let target_dir := resolve (target args) in
  let output_dir := resolve (default source_dir (output args)) in
  original_cwd ← Path_cwd;
  print "Starting merge session" ;;
  print ("  Source:  " +:+ path_str source_dir) ;;
  print ("  Target:  " +:+ path_str target_dir) ;;
  print ("  Output:  " +:+ path_str output_dir) ;;
  print "" ;;
  try_except
    (temp_dir ← mkdtemp "dir-merge-";
     print ("Copying source to temp repo: " +:+ path_str temp_dir) ;;
     copytree source_dir temp_dir ;;
     print "Initializing git repository..." ;;
     subprocess_run git_init (Some temp_dir) true ;;
     subprocess_run (git_config "user.email" "dir-merge@local") (Some temp_dir) true ;;
     subprocess_run (git_config "user.name" "dir-merge") (Some temp_dir) true ;;
     subprocess_run git_add_all (Some temp_dir) true ;;
     subprocess_run (git_commit "BASE") (Some temp_dir) true ;;
     print "Overlaying target..." ;;
     subprocess_run (rsync_mirror target_dir temp_dir) None true ;;
     let state : gmap string string :=
       <["target_dir" := path_str target_dir]>
       (<["source_dir" := path_str source_dir]>
       (<["output_dir" := path_str output_dir]>
       (<["original_cwd" := path_str original_cwd]>
       {["temp_repo_path" := path_str temp_dir]}))) in
     save_session_state state ;;
     print "" ;;
     print "Merge session initialized!" ;;
     print ("Session ID (temp repo): " +:+ path_name temp_dir) ;;
     print "" ;;
     print "Spawning new shell in temp directory..." ;;
     print "" ;;
     shell ← environ_get "SHELL" "/bin/bash";
     shell_process ← Popen shell temp_dir;
     let state := <["shell_pid" := str_of_Z shell_process]> state in
     save_session_state state ;;
     Popen_wait shell_process)
    report_and_exit.

(** [finish_command(args)] *)
Definition finish_command : M unit :=
  state ← load_session_state;
  here ← Path_cwd;
  let current_cwd := resolve here in
  temp_repo_path ← dict_get state "temp_repo_path";
  let temp_repo := resolve (Path_of_str temp_repo_path) in
  output_path ← dict_get state "output_dir";
  let output_dir := Path_of_str output_path in
  (if decide (current_cwd ≠ temp_repo)
   then eprint "Error: finish must be run from within the temp repository" ;;
        eprint ("Expected: " +:+ path_str temp_repo) ;;
        eprint ("Current:  " +:+ path_str current_cwd) ;;
        sys_exit 1
   else mret tt) ;;
  found ← Path_exists temp_repo;
  (if negb found
   then eprint ("Error: Temporary repository not found: " +:+ path_str temp_repo) ;;
        clear_session_state ;;
        sys_exit 1
   else mret tt) ;;
  print ("Applying changes to " +:+ path_str output_dir) ;;
  print "" ;;
  try_except
    (mkdir_parents output_dir ;;
     subprocess_run git_checkout_all (Some temp_repo) true ;;
     subprocess_run git_clean_fd (Some temp_repo) true ;;
     print "Copying repository state to output directory..." ;;
     subprocess_run (rsync_mirror temp_repo output_dir) None true ;;
     print "Cleaning up temporary repository..." ;;
     rmtree temp_repo ;;
     shell_pid ← int_of_get state "shell_pid" (-1);
     clear_session_state ;;
     print "" ;;
     print "Successfully applied changes!" ;;
     print ("Output directory: " +:+ path_str output_dir) ;;
     print "" ;;
     print "Exiting temp shell and returning to original directory..." ;;
     (if 0 <? shell_pid then os_kill shell_pid else mret tt))
    report_and_exit.

(** [status_command(args)] *)
Definition status_command : M unit :=
  state ← load_session_state;
  print "Active merge session:" ;;
  print "" ;;
  temp_repo_path ← dict_get state "temp_repo_path";
  print ("  Session ID (temp repo):  " +:+ path_name (Path_of_str temp_repo_path)) ;;
  print ("  Temp repo path:          " +:+ temp_repo_path) ;;
  original_cwd ← dict_get state "original_cwd";
  print ("  Original directory:      " +:+ original_cwd) ;;
  output_dir ← dict_get state "output_dir";
  print ("  Output directory:        " +:+ output_dir) ;;
  source_dir ← dict_get state "source_dir";
  print ("  Source directory:        " +:+ source_dir) ;;
  target_dir ← dict_get state "target_dir";
  print ("  Target directory:        " +:+ target_dir) ;;
  print "" ;;
  let temp_repo := Path_of_str temp_repo_path in
  found ← Path_exists temp_repo;
  if found : bool
  then
    print "Git status in temp repo:" ;;
    print "" ;;
    try_except
      (result ← subprocess_run git_status_short (Some temp_repo) false;
       if decide (result.2 ≠ "") then print result.2 else print "  (no changes)")
      (λ _, Some (mret tt)) ;;
    print ""
  else mret tt.

(* ===================================================================== *)
(** ** When the commands get through *)
(* ===================================================================== *)

(** The staging directory [mkdtemp] makes for the candidate [name]. *)
Definition staging_dir (env : Env) (name : string) : Path :=
  tmpdir env ++ ["dir-merge-" +:+ name].

(** The shell [merge_command] spawns. *)
Definition shell_of (env : Env) : string := default "/bin/bash" (environ env !! "SHELL").

(** The output directory of a merge: [--output], or else the source. *)
Definition output_of (args : MergeArgs) : Path := default (source args) (output args).

(** Conditions under which every step of [merge_command] succeeds: the two
    directories exist; the paths are in normal form; [name] is the candidate
    [mkdtemp] takes and the staging directory it makes does not lie below
    the source or the target; the source is not itself a repository and has
    at least one regular file (so that there is something to commit); git
    and rsync can be executed; the shell starts as process [pid]; the
    command runs in a directory that exists. *)
Record merge_ready (args : MergeArgs) (env : Env) (w : World) (name : string) (pid : Z)
    : Prop := {
  mr_source : is_dir (files w) (source args) = true;
  mr_target : is_dir (files w) (target args) = true;
  mr_source_wf : wf_path (source args) = true;
  mr_target_wf : wf_path (target args) = true;
  mr_output_wf : wf_path (output_of args) = true;
  mr_files : wf_fs (files w);
  mr_tmpdir : is_dir (files w) (tmpdir env) = true;
  mr_name :
    List.find (λ n, negb (exists_ (files w) (tmpdir env ++ ["dir-merge-" +:+ n])))
              (tmp_names env) = Some name;
  mr_source_above : strip (source args) (staging_dir env name) = None;
  mr_target_above : strip (target args) (staging_dir env name) = None;
  mr_source_plain : files w !! (source args ++ [GIT]) = None;
  mr_source_file :
    ∃ q c, is_meta q = false ∧ files w !! (source args ++ q) = Some (File c);
  mr_git : installed env "git" = true;
  mr_rsync : installed env "rsync" = true;
  mr_spawn : spawn env (shell_of env) = Some pid;
  mr_cwd : is_dir (files w) (cwd env) = true
}.

(** The process id a session record names: [-1] when it names none. *)
Definition recorded_pid (state : gmap string string) : option Z :=
  match state !! "shell_pid" with
  | Some v => int_of_str v
  | None => Some (-1)
  end.

(** Conditions under which [finish_command] gets as far as the signal: the
    session record [state] names the staging directory [st] and the output
    directory [od], both in normal form, and a process id that reads as an
    integer; the command runs in [st], which holds a repository [r] with at
    least one tracked path; [od] and [st] are apart and no regular file
    stands on the way to [od]; git and rsync can be executed. *)
Record finish_ready (env : Env) (w : World) (state : gmap string string)
    (st od : Path) (r : Repo) (pid : Z) : Prop := {
  fr_session : session w = Some state;
  fr_staging : state !! "temp_repo_path" = Some (path_str st);
  fr_output : state !! "output_dir" = Some (path_str od);
  fr_pid : recorded_pid state = Some pid;
  fr_staging_wf : wf_path st = true;
  fr_output_wf : wf_path od = true;
  fr_cwd : cwd env = st;
  fr_staging_dir : is_dir (files w) st = true;
  fr_repo : repo_at (files w) st = Some r;
  fr_tracked : index r ≠ ∅;
  fr_apart : apart od st;
  fr_free : existsb (is_file (files w)) (inits od) = false;
  fr_git : installed env "git" = true;
  fr_rsync : installed env "rsync" = true
}.

(** The five entries every session record has. *)
Definition full_record (state : gmap string string) : Prop :=
  is_Some (state !! "temp_repo_path") ∧ is_Some (state !! "original_cwd") ∧
  is_Some (state !! "output_dir") ∧ is_Some (state !! "source_dir") ∧
  is_Some (state !! "target_dir").

(** The identity [merge_command] configures, and the repository after the
    commit of the index [idx] as BASE. *)
Definition identity : gmap string string :=
  <["user.name" := "dir-merge"]> (<["user.email" := "dir-merge@local"]> ∅).

Definition base_repo (idx : gmap Path string) : Repo := mkRepo idx [("BASE", idx)] identity.

(** The record [merge_command] saves first, for the staging directory [st]. *)
Definition session_record (args : MergeArgs) (env : Env) (st : Path) : gmap string string :=
  <["target_dir" := path_str (target args)]>
  (<["source_dir" := path_str (source args)]>
  (<["output_dir" := path_str (output_of args)]>
  (<["original_cwd" := path_str (cwd env)]>
  {["temp_repo_path" := path_str st]}))).

(** The world in which the spawned shell starts, step by step: the staging
    directory is made, the source copied into it, the copy committed as
    BASE, the target mirrored over it, the record saved with the process id
    of the shell. *)
Definition staged_world (args : MergeArgs) (env : Env) (w : World) (name : string)
    (pid : Z) : World :=
  let st := staging_dir env name in
  mkWorld
    (mirror (target args) st
       (set_repo st (base_repo (worktree_files (source args) (files w)))
          (copy_tree (source args) st (<[st := Dir]> (files w)))))
    (Some (<["shell_pid" := str_of_Z pid]> (session_record args env st)))
    ({[pid]} ∪ procs w).

(** The files [finish_command] leaves: the output directory is made, the
    work tree is put back to the index and cleaned, the result is mirrored to
    the output, and the staging directory is removed. *)
Definition finished_files (st od : Path) (idx : gmap Path string)
    (fs : gmap Path Node) : gmap Path Node :=
  remove_tree st
    (mirror st od
       (clean_untracked st idx
          (checkout_index st idx
             (make_dirs od fs)))).

(** The world [finish_command] leaves when it gets as far as the signal. *)
Definition finished_world (st od : Path) (r : Repo) (pid : Z) (w : World) : World :=
  mkWorld (finished_files st od (index r) (files w)) None
          (if 0 <? pid then procs w ∖ {[pid]} else procs w).

(** The signal is sent and there is no such process. *)
Definition signal_fails (pid : Z) (w : World) : bool :=
  (0 <? pid) && negb (bool_decide (pid ∈ procs w)).

(** The lines [status_command] prints about the record [state]. *)
Definition status_header (tp oc od sd td : string) : list (Stream * string) :=
  [(Stdout, "Active merge session:");
   (Stdout, "");
   (Stdout, "  Session ID (temp repo):  " +:+ path_name (Path_of_str tp));
   (Stdout, "  Temp repo path:          " +:+ tp);
   (Stdout, "  Original directory:      " +:+ oc);
   (Stdout, "  Output directory:        " +:+ od);
   (Stdout, "  Source directory:        " +:+ sd);
   (Stdout, "  Target directory:        " +:+ td);
   (Stdout, "")].

(** The live status query of [status_command] cannot be started. *)
Definition query_raises (env : Env) (w : World) (d : Path) : bool :=
  negb (installed env "git") || negb (is_dir (files w) d).

(* ===================================================================== *)
(** ** A scenario: [src] holds [a.txt] = 1, [tgt] holds [a.txt] = 2 and
       [b.txt] = x *)
(* ===================================================================== *)

Definition home : Path := ["home"; "u"].
Definition src0 : Path := ["home"; "u"; "src"].
Definition tgt0 : Path := ["home"; "u"; "tgt"].
Definition st0 : Path := ["tmp"; "dir-merge-k3x9"].

Definition fs0 : gmap Path Node :=
  list_to_map
    [([], Dir); (["tmp"], Dir); (["home"], Dir); (home, Dir);
     (src0, Dir); (src0 ++ ["a.txt"], File "1");
     (tgt0, Dir); (tgt0 ++ ["a.txt"], File "2"); (tgt0 ++ ["b.txt"], File "x")].

(** No session, no process of interest. *)
Definition w0 : World := mkWorld fs0 None ∅.

Definition args0 : MergeArgs := mkMergeArgs src0 tgt0 None.

(** [merge] is run in [/home/u]; [mkdtemp] draws [k3x9]; every program can
    be executed; the shell gets process id 4242; [u] is what the user does
    in the shell. *)
Definition env0 (u : World → World) : Env :=
  mkEnv home ∅ ["tmp"] ["k3x9"] (λ _, true) (λ _, Some 4242) u.

(** A command typed in the staging directory. *)
Definition env_in0 : Env := mkEnv st0 ∅ ["tmp"] [] (λ _, true) (λ _, None) id.

(** A command typed in [/home/u]. *)
Definition env_home0 : Env := mkEnv home ∅ ["tmp"] ["k3x9"; "p7q2"] (λ _, true) (λ _, Some 4343) id.

(** The user types [finish] in the shell and nothing else. *)
Definition finish_at_once (w : World) : World := (run finish_command env_in0 w).2.

Definition record0 : gmap string string :=
  list_to_map
    [("temp_repo_path", "/tmp/dir-merge-k3x9"); ("original_cwd", "/home/u");
     ("output_dir", "/home/u/src"); ("source_dir", "/home/u/src");
     ("target_dir", "/home/u/tgt"); ("shell_pid", "4242")].

Definition repo0 : Repo := base_repo {[ ["a.txt"] := "1" ]}.

(** The session is active: the staging directory holds the target's files
    over the BASE commit of the source's; the shell is gone. *)
Definition w_active : World :=
  mkWorld
    (<[st0 := Dir]> (<[st0 ++ [GIT] := GitDir repo0]>
      (<[st0 ++ ["a.txt"] := File "2"]> (<[st0 ++ ["b.txt"] := File "x"]> fs0))))
    (Some record0) ∅.

(** The same as [w_active], with the shell of the session still running. *)
Definition w_shell : World := set_procs {[4242]} w_active.

(** A command typed in [/home/u] on a machine without git. *)
Definition env_nogit : Env :=
  mkEnv home ∅ ["tmp"] ["k3x9"] (λ p, negb (String.eqb p "git")) (λ _, Some 4343) id.

(** The session record is there, the staging directory is not. *)
Definition w_lost : World := mkWorld fs0 (Some record0) ∅.

(** [merge] with a source, and with a target, that does not exist. *)
Definition args_nosrc : MergeArgs := mkMergeArgs (home ++ ["nope"]) tgt0 None.
Definition args_notgt : MergeArgs := mkMergeArgs src0 (home ++ ["nope"]) None.

(** The session as [merge_command] records it before the shell is spawned:
    no process id in the record; the shell 4242 is running. *)
Definition w_unsignalled : World := set_session (Some (delete "shell_pid" record0)) w_shell.

(** The user has removed [.git] from the staging directory. *)
Definition w_bare : World := set_files (delete (st0 ++ [GIT]) (files w_active)) w_active.
(* ===================================================================== *)
(** ** Paths: prefixes and the string round trip *)
(* ===================================================================== *)

Lemma strip_app (d q : Path) : strip d (d ++ q) = Some q.
Proof. induction d as [|x d IH]; simpl; [done|]. by rewrite decide_True. Qed.

Lemma strip_Some (d p q : Path) : strip d p = Some q ↔ p = d ++ q.
Proof.
  split; [|intros ->; apply strip_app].
  revert p; induction d as [|x d IH]; intros [|y p]; simpl; try congruence.
  case_decide; [|done]. intros Hq%IH. by subst.
Qed.

Lemma strip_refl (d : Path) : strip d d = Some [].
Proof. apply strip_Some. by rewrite app_nil_r. Qed.

Lemma strip_None_ne (d p q : Path) : strip d p = None → p ≠ d ++ q.
Proof. intros H ->. by rewrite strip_app in H. Qed.

(** Two paths that are apart stay apart whatever is appended to one. *)
Lemma apart_strip_app (a b q : Path) : apart a b → strip a (b ++ q) = None.
Proof.
  intros [H1 H2]. revert b H1 H2.
  induction a as [|x a IH]; intros [|y b] H1 H2; simpl in *; try done.
  destruct (decide (x = y)) as [->|Hne]; [|done].
  rewrite decide_True in H2 by done. by apply IH.
Qed.

Lemma apart_sym (a b : Path) : apart a b → apart b a.
Proof. intros [? ?]; by split. Qed.

Lemma elem_of_inits (p' p : Path) : is_Some (strip p' p) → p' ∈ inits p.
Proof.
  revert p'. induction p as [|c p IH]; intros [|x p']; simpl; intros [q Hq];
    try done; try (by left).
  case_decide; [subst|done]. right. apply list_elem_of_fmap. exists p'. eauto.
Qed.

Lemma inits_strip (p' p : Path) : p' ∈ inits p → is_Some (strip p' p).
Proof.
  revert p'. induction p as [|c p IH]; intros p'; simpl.
  - intros ->%list_elem_of_singleton. by eexists.
  - intros [->|(x & -> & Hx)%list_elem_of_fmap]%elem_of_cons; [by eexists|].
    simpl. rewrite decide_True by done. by apply IH.
Qed.

Lemma below_spec (q k : Path) : below q k = true ↔ ∃ c r, k = q ++ c :: r.
Proof.
  unfold below. split.
  - destruct (strip q k) as [[|c r]|] eqn:E; try done.
    apply strip_Some in E. eauto.
  - intros (c & r & ->). by rewrite strip_app.
Qed.

Lemma is_meta_app (a b : Path) : is_meta (a ++ b) = is_meta a || is_meta b.
Proof.
  unfold is_meta. rewrite <- bool_decide_or. apply bool_decide_ext, elem_of_app.
Qed.

Lemma is_meta_GIT : is_meta [GIT] = true.
Proof. apply bool_decide_eq_true. set_solver. Qed.

Lemma append_cons (a : ascii) (s t : string) : String a s +:+ t = String a (s +:+ t).
Proof. reflexivity. Qed.

Lemma append_nil_l (t : string) : "" +:+ t = t.
Proof. reflexivity. Qed.

Lemma append_nil_r (s : string) : s +:+ "" = s.
Proof. induction s as [|a s IH]; [done|]. by rewrite append_cons, IH. Qed.

Lemma append_assoc (a b c : string) : (a +:+ b) +:+ c = a +:+ (b +:+ c).
Proof. induction a as [|x a IH]; [done|]. by rewrite !append_cons, IH. Qed.

Lemma path_parts_comp (c cur rest : string) :
  ¬ In "/"%char (list_ascii_of_string c) →
  path_parts cur (c +:+ rest) = path_parts (cur +:+ c) rest.
Proof.
  revert cur. induction c as [|a c IH]; intros cur Hc.
  - by rewrite append_nil_l, append_nil_r.
  - simpl in Hc. rewrite append_cons. simpl.
    rewrite decide_False by (intros ->; apply Hc; by left).
    rewrite IH by (intros ?; apply Hc; by right).
    by rewrite append_assoc.
Qed.

Lemma wf_comp_spec (c : string) :
  wf_comp c = true →
  c ≠ "" ∧ c ≠ "." ∧ c ≠ ".." ∧ ¬ In "/"%char (list_ascii_of_string c).
Proof.
  unfold wf_comp. intros [H1 H2]%andb_true_iff.
  apply bool_decide_eq_true in H1 as (? & ? & ?). repeat split; try done.
  intros Hin. apply negb_true_iff in H2.
  assert (existsb (Ascii.eqb "/") (list_ascii_of_string c) = true) as Hex; [|congruence].
  apply existsb_exists. exists "/"%char. split; [done|apply Ascii.eqb_refl].
Qed.

Lemma wf_path_cons (c : string) (p : Path) :
  wf_path (c :: p) = true ↔ wf_comp c = true ∧ wf_path p = true.
Proof. apply andb_true_iff. Qed.

Lemma wf_path_app (a b : Path) :
  wf_path a = true → wf_path b = true → wf_path (a ++ b) = true.
Proof. unfold wf_path. rewrite forallb_app. by intros -> ->. Qed.

Lemma path_parts_slashed (p : Path) (cur : string) :
  wf_path p = true →
  path_parts cur (String.concat "" (map (String.append "/") p))
  = (if decide (cur = "") then [] else [cur]) ++ p.
Proof.
  revert cur. induction p as [|c p IH]; intros cur Hp.
  - simpl. case_decide; done.
  - apply wf_path_cons in Hp as [(Hne & _ & _ & Hs)%wf_comp_spec Hp].
    replace (String.concat "" (map (String.append "/") (c :: p)))
      with (String "/" (c +:+ String.concat "" (map (String.append "/") p))).
    2:{ simpl. destruct p; simpl; [rewrite append_nil_r|]; reflexivity. }
    simpl. rewrite (path_parts_comp c "" _ Hs), append_nil_l.
    rewrite IH by done. rewrite (decide_False (P := c = "")) by done.
    case_decide; done.
Qed.

(** [Path(str(p))] is [p]. *)
Lemma Path_of_str_path_str (p : Path) : wf_path p = true → Path_of_str (path_str p) = p.
Proof.
  intros Hp. unfold Path_of_str, path_str. destruct p as [|c p]; [done|].
  rewrite path_parts_slashed by done. simpl.
  induction (c :: p) as [|x l IH]; [done|].
  apply wf_path_cons in Hp as [(_ & Hx & _)%wf_comp_spec Hp].
  rewrite filter_cons_True by done. by rewrite IH.
Qed.

Lemma resolve_wf (p : Path) : wf_path p = true → resolve p = p.
Proof.
  unfold resolve. intros Hp.
  enough (∀ acc, fold_left (λ acc c, if decide (c = "..") then removelast acc else acc ++ [c])
                   p acc = acc ++ p) as H by apply H.
  induction p as [|x l IH]; intros acc; simpl.
  - by rewrite app_nil_r.
  - apply wf_path_cons in Hp as [(_ & _ & Hx & _)%wf_comp_spec Hp].
    rewrite decide_False by done. rewrite IH by done. by rewrite <- app_assoc.
Qed.

(** [int(str(z))] is [z]. *)
Lemma int_of_str_of_Z (z : Z) : int_of_str (str_of_Z z) = Some z.
Proof.
  unfold int_of_str, str_of_Z. rewrite NilZero.isi.
  - simpl. by rewrite DecimalZ.of_to.
  - destruct z; simpl; try done. intros [=H]. by apply DecimalPos.Unsigned.to_uint_nonnil in H.
  - destruct z; simpl; try done. intros [=H]. by apply DecimalPos.Unsigned.to_uint_nonnil in H.
Qed.

(* ===================================================================== *)
(** ** The file-system operations, entry by entry *)
(* ===================================================================== *)

Lemma lookup_tabulate {A : Type} (keys : gset Path) (f : Path → option A) (p : Path) :
  tabulate keys f !! p = if decide (p ∈ keys) then f p else None.
Proof.
  unfold tabulate. rewrite map_lookup_imap, lookup_gset_to_gmap.
  case_decide; simpl.
  - by rewrite option_guard_True.
  - by rewrite option_guard_False.
Qed.

Lemma lookup_tabulate_total {A : Type} (keys : gset Path) (f : Path → option A) (p : Path) :
  (is_Some (f p) → p ∈ keys) → tabulate keys f !! p = f p.
Proof.
  intros H. rewrite lookup_tabulate. case_decide; [done|].
  destruct (f p) eqn:E; [|done]. exfalso. eauto.
Qed.

Lemma elem_of_rebase (from to : Path) (X : gset Path) (p : Path) :
  p ∈ rebase from to X ↔ ∃ q, from ++ q ∈ X ∧ p = to ++ q.
Proof.
  unfold rebase. rewrite elem_of_set_omap. split.
  - intros (x & Hx & Hs). destruct (strip from x) as [q|] eqn:E; simplify_eq/=.
    apply strip_Some in E. subst. eauto.
  - intros (q & Hq & ->). exists (from ++ q). split; [done|]. by rewrite strip_app.
Qed.

Lemma elem_of_with_parents (d : Path) (X : gset Path) (q k : Path) :
  k ∈ X → is_Some (strip q k) → d ++ q ∈ with_parents d X.
Proof.
  intros Hk Hq. unfold with_parents. apply elem_of_set_bind. exists k. split; [done|].
  apply elem_of_list_to_set, list_elem_of_fmap. exists q. split; [done|].
  by apply elem_of_inits.
Qed.

Lemma lookup_copy_tree (src dst : Path) (fs : gmap Path Node) (p : Path) :
  copy_tree src dst fs !! p =
    match strip dst p with
    | Some q => match fs !! (src ++ q) with
                | Some n => Some n
                | None => fs !! p
                end
    | None => fs !! p
    end.
Proof.
  unfold copy_tree. apply lookup_tabulate_total. intros Hs.
  apply elem_of_union. destruct (strip dst p) as [q|] eqn:E.
  - destruct (fs !! (src ++ q)) eqn:E'.
    + right. apply elem_of_rebase. exists q. split.
      * apply elem_of_dom. by rewrite E'.
      * by apply strip_Some.
    + left. by apply elem_of_dom.
  - left. by apply elem_of_dom.
Qed.

Lemma lookup_mirror (src dst : Path) (fs : gmap Path Node) (p : Path) :
  mirror src dst fs !! p =
    match strip dst p with
    | Some [] => Some Dir
    | Some q => if is_meta q then fs !! p else fs !! (src ++ q)
    | None => fs !! p
    end.
Proof.
  unfold mirror. apply lookup_tabulate_total. intros Hs.
  rewrite !elem_of_union. destruct (strip dst p) as [[|c q]|] eqn:E.
  - right. apply strip_Some in E. rewrite app_nil_r in E. subst. set_solver.
  - destruct (is_meta (c :: q)).
    + left; left. by apply elem_of_dom.
    + left; right. apply elem_of_rebase. exists (c :: q). split.
      * by apply elem_of_dom.
      * by apply strip_Some.
  - left; left. by apply elem_of_dom.
Qed.

Lemma lookup_remove_tree (p : Path) (fs : gmap Path Node) (p' : Path) :
  remove_tree p fs !! p' = match strip p p' with Some _ => None | None => fs !! p' end.
Proof.
  unfold remove_tree. apply lookup_tabulate_total. intros Hs.
  destruct (strip p p'); [by destruct Hs|]. by apply elem_of_dom.
Qed.

Lemma lookup_make_dirs (p : Path) (fs : gmap Path Node) (p' : Path) :
  make_dirs p fs !! p' =
    match fs !! p' with
    | Some n => Some n
    | None => if bool_decide (is_Some (strip p' p)) then Some Dir else None
    end.
Proof.
  unfold make_dirs. apply lookup_tabulate_total. intros Hs.
  apply elem_of_union. destruct (fs !! p') eqn:E.
  - left. apply elem_of_dom. by rewrite E.
  - right. case_bool_decide; [|by destruct Hs].
    by apply elem_of_list_to_set, elem_of_inits.
Qed.

Lemma lookup_worktree_files (d : Path) (fs : gmap Path Node) (q : Path) :
  worktree_files d fs !! q =
    if is_meta q then None
    else match fs !! (d ++ q) with
         | Some (File c) => Some c
         | _ => None
         end.
Proof.
  unfold worktree_files. apply lookup_tabulate_total. intros Hs.
  apply elem_of_rebase. exists q. split; [|done].
  apply elem_of_dom. destruct (is_meta q); [by destruct Hs|].
  destruct (fs !! (d ++ q)); [done|by destruct Hs].
Qed.

Lemma tracked_node_in (d : Path) (idx : gmap Path string) (q : Path) :
  is_Some (tracked_node idx q) → d ++ q ∈ with_parents d (dom idx).
Proof.
  unfold tracked_node. destruct (idx !! q) eqn:E.
  - intros _. apply elem_of_with_parents with q; [|by rewrite strip_refl].
    apply elem_of_dom. by rewrite E.
  - case_bool_decide as Hex; [|by intros []]. intros _.
    destruct Hex as (k & Hk & Hb). apply elem_of_with_parents with k; [done|].
    apply below_spec in Hb as (c & r & ->). rewrite strip_app. by eexists.
Qed.

Lemma lookup_checkout_index (d : Path) (idx : gmap Path string)
    (fs : gmap Path Node) (p : Path) :
  checkout_index d idx fs !! p =
    match strip d p with
    | Some [] => fs !! p
    | Some q => if is_meta q then fs !! p
                else match tracked_node idx q with
                     | Some n => Some n
                     | None => fs !! p
                     end
    | None => fs !! p
    end.
Proof.
  unfold checkout_index. apply lookup_tabulate_total. intros Hs.
  apply elem_of_union. destruct (strip d p) as [[|c q]|] eqn:E.
  - left. by apply elem_of_dom.
  - destruct (is_meta (c :: q)); [left; by apply elem_of_dom|].
    destruct (tracked_node idx (c :: q)) eqn:E'.
    + right. apply strip_Some in E as ->. apply tracked_node_in. by rewrite E'.
    + left. by apply elem_of_dom.
  - left. by apply elem_of_dom.
Qed.

Lemma lookup_clean_untracked (d : Path) (idx : gmap Path string)
    (fs : gmap Path Node) (p : Path) :
  clean_untracked d idx fs !! p =
    match strip d p with
    | Some [] => fs !! p
    | Some q => if is_meta q then fs !! p
                else match tracked_node idx q with
                     | Some _ => fs !! p
                     | None => None
                     end
    | None => fs !! p
    end.
Proof.
  unfold clean_untracked. apply lookup_tabulate_total. intros Hs.
  apply elem_of_dom. destruct (strip d p) as [[|c q]|]; try done.
  destruct (is_meta (c :: q)); [done|].
  destruct (tracked_node idx (c :: q)); [done|by destruct Hs].
Qed.

Lemma wf_fs_parent (fs : gmap Path Node) (p : Path) (c : string) :
  wf_fs fs → is_Some (fs !! (p ++ [c])) → is_dir fs p = true.
Proof.
  intros Hwf [n Hn]. apply Hwf in Hn as [Hnil|Hd].
  - by destruct p.
  - by rewrite removelast_last in Hd.
Qed.

(** Below a path that is absent from a well-formed file system there is
    nothing. *)
Lemma wf_fs_absent_below (fs : gmap Path Node) (p q : Path) :
  wf_fs fs → fs !! p = None → fs !! (p ++ q) = None.
Proof.
  intros Hwf Hp. induction q as [|c q IH] using rev_ind.
  - by rewrite app_nil_r.
  - destruct (fs !! (p ++ q ++ [c])) eqn:E; [|done].
    rewrite app_assoc in E. assert (is_dir fs (p ++ q) = true) as Hd.
    { apply (wf_fs_parent _ _ c); [done|]. by rewrite E. }
    unfold is_dir in Hd. by rewrite IH in Hd.
Qed.

(** On the way to an entry of a well-formed file system there are only
    directories. *)
Lemma wf_fs_dir_above (fs : gmap Path Node) (p q : Path) :
  wf_fs fs → is_Some (fs !! (p ++ q)) → q ≠ [] → is_dir fs p = true.
Proof.
  intros Hwf. induction q as [|c q IH] using rev_ind; [done|].
  intros Hs _. rewrite app_assoc in Hs. apply wf_fs_parent in Hs; [|done].
  destruct q as [|c' q]; [by rewrite app_nil_r in Hs|].
  apply IH; [|done]. unfold is_dir in Hs. destruct (fs !! (p ++ c' :: q)); [by eexists|done].
Qed.

(* ===================================================================== *)
(** ** Stepping through a command *)
(* ===================================================================== *)

Ltac norm :=
  unfold set_files, set_session, set_procs, on_world;
  cbn [files session procs world console default from_option id].

Lemma run_bind {A B : Type} (m : M A) (k : A → M B) (env : Env) (s s' : Sys) (a : A) :
  m env s = (Ret a, s') → (m ≫= k) env s = k a env s'.
Proof. unfold mbind, M_bind. by intros ->. Qed.

Lemma run_bind_raise {A B : Type} (m : M A) (k : A → M B) (env : Env) (s s' : Sys) (e : Exn) :
  m env s = (Raise e, s') → (m ≫= k) env s = (Raise e, s').
Proof. unfold mbind, M_bind. by intros ->. Qed.

Lemma run_bind_exit {A B : Type} (m : M A) (k : A → M B) (env : Env) (s s' : Sys) (c : Z) :
  m env s = (Exit c, s') → (m ≫= k) env s = (Exit c, s').
Proof. unfold mbind, M_bind. by intros ->. Qed.

Lemma try_except_ret {A : Type} (body : M A) (h : Exn → option (M A))
    (env : Env) (s s' : Sys) (a : A) :
  body env s = (Ret a, s') → try_except body h env s = (Ret a, s').
Proof. unfold try_except. by intros ->. Qed.

Lemma try_except_raise {A : Type} (body : M A) (h : Exn → option (M A)) (k : M A)
    (env : Env) (s s' : Sys) (e : Exn) :
  body env s = (Raise e, s') → h e = Some k → try_except body h env s = k env s'.
Proof. unfold try_except. by intros -> ->. Qed.

Lemma print_run (msg : string) (env : Env) (w : World) (co : list (Stream * string)) :
  print msg env (mkSys w co) = (Ret tt, mkSys w (co ++ [(Stdout, msg)])).
Proof. done. Qed.

Lemma eprint_run (msg : string) (env : Env) (w : World) (co : list (Stream * string)) :
  eprint msg env (mkSys w co) = (Ret tt, mkSys w (co ++ [(Stderr, msg)])).
Proof. done. Qed.

Lemma is_dir_node (fs : gmap Path Node) (p : Path) :
  is_dir fs p = true → fs !! p = Some Dir ∨ ∃ r, fs !! p = Some (GitDir r).
Proof. unfold is_dir. destruct (fs !! p) as [[]|]; naive_solver. Qed.

Lemma is_dir_Some (fs : gmap Path Node) (p : Path) : is_dir fs p = true → is_Some (fs !! p).
Proof. intros [->| [r ->]]%is_dir_node; by eexists. Qed.

Lemma mkdtemp_run (prefix name : string) (env : Env) (w : World)
    (co : list (Stream * string)) :
  is_dir (files w) (tmpdir env) = true →
  List.find (λ n, negb (exists_ (files w) (tmpdir env ++ [prefix +:+ n]))) (tmp_names env)
    = Some name →
  mkdtemp prefix env (mkSys w co)
  = (Ret (tmpdir env ++ [prefix +:+ name]),
     mkSys (set_files (<[tmpdir env ++ [prefix +:+ name] := Dir]> (files w)) w) co).
Proof. unfold mkdtemp. simpl. by intros -> ->. Qed.

Lemma copytree_run (src dst : Path) (env : Env) (w : World) (co : list (Stream * string)) :
  is_dir (files w) src = true →
  copytree src dst env (mkSys w co)
  = (Ret tt, mkSys (set_files (copy_tree src dst (files w)) w) co).
Proof. unfold copytree. simpl. by intros [->|[r ->]]%is_dir_node. Qed.

Lemma rmtree_run (p : Path) (env : Env) (w : World) (co : list (Stream * string)) :
  is_dir (files w) p = true →
  rmtree p env (mkSys w co) = (Ret tt, mkSys (set_files (remove_tree p (files w)) w) co).
Proof. unfold rmtree. simpl. by intros [->|[r ->]]%is_dir_node. Qed.

Lemma subprocess_run_ok (c : Cmd) (dir : option Path) (check : bool) (env : Env)
    (w w' : World) (co : list (Stream * string)) (out : string) :
  installed env (program c) = true →
  (∀ d, dir = Some d → is_dir (files w) d = true) →
  tool c (default (cwd env) dir) w = (0, out, w') →
  subprocess_run c dir check env (mkSys w co) = (Ret (0, out), mkSys w' co).
Proof.
  intros Hi Hd Ht. unfold subprocess_run. simpl. rewrite Hi. simpl.
  destruct dir as [d|]; simpl in *.
  - rewrite Hd by done. simpl. rewrite Ht. by rewrite andb_false_r.
  - rewrite Ht. by rewrite andb_false_r.
Qed.

Lemma Popen_run (prog : string) (dir : Path) (pid : Z) (env : Env) (w : World)
    (co : list (Stream * string)) :
  is_dir (files w) dir = true →
  spawn env prog = Some pid →
  Popen prog dir env (mkSys w co) = (Ret pid, mkSys (set_procs ({[pid]} ∪ procs w) w) co).
Proof. unfold Popen. simpl. by intros -> ->. Qed.

Lemma repo_at_set_repo (d : Path) (r : Repo) (fs : gmap Path Node) :
  repo_at (set_repo d r fs) d = Some r.
Proof. unfold repo_at, set_repo. by rewrite lookup_insert_eq. Qed.

Lemma set_repo_set_repo (d : Path) (r r' : Repo) (fs : gmap Path Node) :
  set_repo d r (set_repo d r' fs) = set_repo d r fs.
Proof. unfold set_repo. apply insert_insert_eq. Qed.

Lemma lookup_set_repo_ne (d : Path) (r : Repo) (fs : gmap Path Node) (p : Path) :
  p ≠ d ++ [GIT] → set_repo d r fs !! p = fs !! p.
Proof. intros. unfold set_repo. by rewrite lookup_insert_ne. Qed.

Lemma is_dir_set_repo (d : Path) (r : Repo) (fs : gmap Path Node) (p : Path) :
  is_dir fs p = true → is_dir (set_repo d r fs) p = true.
Proof.
  unfold is_dir, set_repo. destruct (decide (p = d ++ [GIT])) as [->|].
  - by rewrite lookup_insert_eq.
  - by rewrite lookup_insert_ne.
Qed.

(** Entries through [.git] do not count as work-tree files. *)
Lemma worktree_files_set_repo (d : Path) (r : Repo) (fs : gmap Path Node) :
  worktree_files d (set_repo d r fs) = worktree_files d fs.
Proof.
  apply map_eq. intros q. rewrite !lookup_worktree_files.
  destruct (is_meta q) eqn:E; [done|]. rewrite lookup_set_repo_ne; [done|].
  intros ->%app_inv_head. by rewrite is_meta_GIT in E.
Qed.

Lemma clear_session_state_run (env : Env) (w : World) (co : list (Stream * string)) :
  clear_session_state env (mkSys w co) = (Ret tt, mkSys (set_session None w) co).
Proof. unfold clear_session_state. simpl. destruct w as [f [st|] p]; done. Qed.

Lemma int_of_get_run (state : gmap string string) (pid : Z) (env : Env) (s : Sys) :
  recorded_pid state = Some pid → int_of_get state "shell_pid" (-1) env s = (Ret pid, s).
Proof.
  unfold recorded_pid, int_of_get. destruct (state !! "shell_pid") as [v|].
  - by intros ->.
  - by intros [= <-].
Qed.

Lemma difference_absent (pid : Z) (X : gset Z) : pid ∉ X → X ∖ {[pid]} = X.
Proof.
  intros Hp. apply set_eq. intros x. rewrite elem_of_difference, elem_of_singleton.
  split; [by intros [? _]|]. intros Hx. split; [done|]. by intros ->.
Qed.

Lemma strip_app_self (a q : Path) : is_Some (strip (a ++ q) a) → q = [].
Proof.
  intros [x Hx]. apply strip_Some in Hx. rewrite <- app_assoc in Hx.
  rewrite <- (app_nil_r a) in Hx at 1. apply app_inv_head in Hx.
  symmetry in Hx. by apply app_eq_nil in Hx as [-> _].
Qed.

(* ===================================================================== *)
(** ** [merge_command], step by step *)
(* ===================================================================== *)

Section merge_runs.
Context (args : MergeArgs) (env : Env) (w : World) (name : string) (pid : Z).
Context (Hready : merge_ready args env w name pid).

Let S := source args.
Let T := target args.
Let st := staging_dir env name.
Let f1 := <[st := Dir]> (files w).
Let f2 := copy_tree S st f1.
Let idx := worktree_files S (files w).

Ltac ready Hready :=
  pose proof Hready as [Hsrc Htgt Hswf Htwf Howf Hwf Htmp Hname Hsab Htab Hplain Hfile
                          Hgit Hrsync Hspawn Hcwdir].

Lemma staging_fresh : files w !! st = None.
Proof.
  ready Hready. apply find_some in Hname as [_ Hn].
  apply negb_true_iff, bool_decide_eq_false in Hn.
  by apply eq_None_not_Some.
Qed.

Lemma staging_fresh_below (q : Path) : files w !! (st ++ q) = None.
Proof. apply wf_fs_absent_below; [by destruct Hready|apply staging_fresh]. Qed.

Lemma present_apart (p : Path) :
  is_Some (files w !! p) → strip p st = None → apart p st.
Proof.
  intros Hp Hs. split; [done|]. destruct (strip st p) as [q|] eqn:E; [|done].
  apply strip_Some in E as ->. rewrite staging_fresh_below in Hp. by destruct Hp.
Qed.

Lemma source_apart : apart S st.
Proof. ready Hready. apply present_apart; [by apply is_dir_Some|done]. Qed.

Lemma target_apart : apart T st.
Proof. ready Hready. apply present_apart; [by apply is_dir_Some|done]. Qed.

Lemma lookup_f1_outside (p : Path) : strip st p = None → f1 !! p = files w !! p.
Proof.
  intros Hp. unfold f1. apply lookup_insert_ne. intros <-. by rewrite strip_refl in Hp.
Qed.

Lemma lookup_f2_outside (p : Path) : strip st p = None → f2 !! p = files w !! p.
Proof. intros Hp. unfold f2. rewrite lookup_copy_tree, Hp. by apply lookup_f1_outside. Qed.

Lemma lookup_f2_staging (q : Path) :
  f2 !! (st ++ q) =
    match files w !! (S ++ q) with
    | Some n => Some n
    | None => if decide (q = []) then Some Dir else None
    end.
Proof.
  unfold f2. rewrite lookup_copy_tree, strip_app.
  rewrite (lookup_f1_outside (S ++ q))
    by (apply apart_strip_app, apart_sym, source_apart).
  destruct (files w !! (S ++ q)); [done|].
  unfold f1. case_decide as Hq.
  - subst. rewrite app_nil_r. apply lookup_insert_eq.
  - rewrite lookup_insert_ne.
    + apply staging_fresh_below.
    + intros Heq. apply Hq. apply (app_inv_head st). by rewrite app_nil_r.
Qed.

Lemma f2_staging_dir : is_dir f2 st = true.
Proof.
  ready Hready. pose proof (lookup_f2_staging []) as H. rewrite !app_nil_r in H.
  unfold is_dir. rewrite H. unfold S. apply is_dir_node in Hsrc as [->|[r ->]]; done.
Qed.

Lemma f2_no_repo : f2 !! (st ++ [GIT]) = None.
Proof.
  ready Hready. rewrite lookup_f2_staging. unfold S. rewrite Hplain.
  by rewrite decide_False.
Qed.

(** The index after [git add .] in the staging directory holds the
    regular files of the source. *)
Lemma worktree_files_f2 : worktree_files st f2 = idx.
Proof.
  ready Hready. apply map_eq. intros q. unfold idx.
  rewrite !lookup_worktree_files. destruct (is_meta q); [done|].
  rewrite lookup_f2_staging. destruct (files w !! (S ++ q)) eqn:E; [done|].
  by case_decide.
Qed.

Lemma idx_nonempty : idx ≠ ∅.
Proof.
  ready Hready. destruct Hfile as (q & c & Hq & Hc). intros He.
  assert (idx !! q = Some c) as Hi.
  { unfold idx, S. by rewrite lookup_worktree_files, Hq, Hc. }
  by rewrite He in Hi.
Qed.

Lemma merge_command_body :
  ∃ out, run (merge_command args) env w
         = (0, out, reap pid (user env (staged_world args env w name pid))).
Proof.
  ready Hready.
  unfold run, merge_command.
  erewrite run_bind; [|unfold Path_is_dir; simpl; by rewrite Hsrc]. simpl.
  erewrite run_bind; [|reflexivity].
  erewrite run_bind; [|unfold Path_is_dir; simpl; by rewrite Htgt]. simpl.
  erewrite run_bind; [|reflexivity].
  erewrite run_bind; [|unfold Path_cwd; simpl; by rewrite Hcwdir].
  rewrite !resolve_wf by done.
  do 5 (erewrite run_bind; [|apply print_run]).
  erewrite try_except_ret; cycle 1.
  erewrite run_bind; [|by apply mkdtemp_run].
  change (tmpdir env ++ ["dir-merge-" +:+ name]) with st.
  erewrite run_bind; [|apply print_run].
  erewrite run_bind; [|by apply copytree_run; norm; unfold is_dir;
                        rewrite lookup_f1_outside by apply source_apart].
  erewrite run_bind; [|apply print_run].
  norm. fold f1. fold S. fold f2.
  erewrite run_bind.
  2:{ apply subprocess_run_ok; [done| |]; norm.
      - intros d [= <-]. apply f2_staging_dir.
      - cbn [tool]. norm. by rewrite f2_no_repo. }
  erewrite run_bind.
  2:{ apply subprocess_run_ok; [done| |]; norm.
      - intros d [= <-]. apply is_dir_set_repo, f2_staging_dir.
      - cbn [tool]. unfold update_repo; norm.
        by rewrite repo_at_set_repo, set_repo_set_repo. }
  erewrite run_bind.
  2:{ apply subprocess_run_ok; [done| |]; norm.
      - intros d [= <-]. apply is_dir_set_repo, f2_staging_dir.
      - cbn [tool]. unfold update_repo; norm.
        by rewrite repo_at_set_repo, set_repo_set_repo. }
  erewrite run_bind.
  2:{ apply subprocess_run_ok; [done| |]; norm.
      - intros d [= <-]. apply is_dir_set_repo, f2_staging_dir.
      - cbn [tool]. unfold update_repo; norm.
        by rewrite repo_at_set_repo, set_repo_set_repo, worktree_files_set_repo,
          worktree_files_f2. }
  cbn [index commits config empty_repo].
  erewrite run_bind.
  2:{ apply subprocess_run_ok; [done| |]; norm.
      - intros d [= <-]. apply is_dir_set_repo, f2_staging_dir.
      - cbn [tool]. norm. rewrite repo_at_set_repo. cbn [index commits config head_tree].
        rewrite bool_decide_true.
        2:{ split; [by rewrite lookup_insert_ne, lookup_insert_eq
                   |by rewrite lookup_insert_eq]. }
        rewrite decide_False by apply idx_nonempty.
        by rewrite set_repo_set_repo. }
  erewrite run_bind; [|apply print_run].
  erewrite run_bind.
  2:{ apply subprocess_run_ok; [done|done|]. cbn [tool]. norm.
      rewrite is_dir_set_repo.
      2:{ unfold is_dir. rewrite lookup_f2_outside by apply target_apart. apply Htgt. }
      rewrite is_dir_set_repo by apply f2_staging_dir.
      reflexivity. }
  erewrite run_bind; [|reflexivity].
  do 6 (erewrite run_bind; [|apply print_run]).
  erewrite run_bind; [|reflexivity].
  erewrite run_bind.
  2:{ apply Popen_run; [|apply Hspawn]. norm. unfold is_dir.
      rewrite lookup_mirror. by rewrite strip_refl. }
  erewrite run_bind; [|reflexivity].
  reflexivity.
  norm. eexists. reflexivity.
Qed.

Lemma staged_outside (p : Path) :
  strip st p = None → files (staged_world args env w name pid) !! p = files w !! p.
Proof.
  intros Hp. unfold staged_world. cbn [files]. fold st.
  rewrite lookup_mirror, Hp, lookup_set_repo_ne.
  - by apply lookup_f2_outside.
  - intros ->. by rewrite strip_app in Hp.
Qed.

Lemma staged_overlay (q : Path) :
  q ≠ [] → is_meta q = false →
  files (staged_world args env w name pid) !! (st ++ q) = files w !! (T ++ q).
Proof.
  intros Hq Hm. unfold staged_world. cbn [files]. fold st.
  rewrite lookup_mirror, strip_app, Hm. destruct q as [|c q]; [done|].
  assert (strip st (target args ++ c :: q) = None) as Hs
    by apply apart_strip_app, apart_sym, target_apart.
  rewrite lookup_set_repo_ne by (intros Heq; by rewrite Heq, strip_app in Hs).
  by apply lookup_f2_outside.
Qed.

Lemma staged_repo :
  repo_at (files (staged_world args env w name pid)) st = Some (base_repo idx).
Proof.
  unfold staged_world, repo_at. cbn [files]. fold st.
  rewrite lookup_mirror, strip_app, is_meta_GIT.
  unfold set_repo. by rewrite lookup_insert_eq.
Qed.

Lemma staged_dir : is_dir (files (staged_world args env w name pid)) st = true.
Proof.
  unfold staged_world, is_dir. cbn [files]. fold st.
  by rewrite lookup_mirror, strip_refl.
Qed.
End merge_runs.

(* ===================================================================== *)
(** ** [finish_command], step by step *)
(* ===================================================================== *)

Lemma existsb_inits_false (fs : gmap Path Node) (p a : Path) :
  existsb (is_file fs) (inits p) = false → is_Some (strip a p) → is_file fs a = false.
Proof.
  intros He Ha. destruct (is_file fs a) eqn:E; [|done].
  assert (existsb (is_file fs) (inits p) = true) as Ht; [|congruence].
  apply existsb_exists. exists a. split; [|done].
  by apply list_elem_of_In, elem_of_inits.
Qed.

Section finish_runs.
Context (env : Env) (w : World) (state : gmap string string).
Context (st od : Path) (r : Repo) (pid : Z).
Context (Hready : finish_ready env w state st od r pid).

Let g1 := make_dirs od (files w).
Let g2 := checkout_index st (index r) g1.
Let g3 := clean_untracked st (index r) g2.
Let g4 := mirror st od g3.

Ltac ready Hready :=
  pose proof Hready as [Hses Hst Hod Hpid Hstwf Hodwf Hcwd Hdir Hrepo Htracked Hapart Hfree
                          Hgit Hrsync].

Lemma lookup_g1_present (p : Path) : is_Some (files w !! p) → g1 !! p = files w !! p.
Proof. intros [n Hn]. unfold g1. by rewrite lookup_make_dirs, Hn. Qed.

Lemma g1_staging : g1 !! st = files w !! st.
Proof. ready Hready. by apply lookup_g1_present, is_dir_Some. Qed.

Lemma g1_repo : g1 !! (st ++ [GIT]) = Some (GitDir r).
Proof.
  ready Hready. unfold repo_at in Hrepo.
  destruct (files w !! (st ++ [GIT])) as [[]|] eqn:E; try done.
  rewrite lookup_g1_present by (by rewrite E). rewrite E. congruence.
Qed.

Lemma g1_output : is_dir g1 od = true.
Proof.
  ready Hready. unfold is_dir, g1. rewrite lookup_make_dirs.
  pose proof (existsb_inits_false _ _ od Hfree) as Hf. rewrite strip_refl in Hf.
  unfold is_file in Hf. destruct (files w !! od) as [[]|].
  - by specialize (Hf ltac:(by eexists)).
  - done.
  - done.
  - by rewrite bool_decide_true by (by rewrite strip_refl).
Qed.

Lemma lookup_g3_staging_root : g3 !! st = files w !! st.
Proof.
  unfold g3, g2. by rewrite lookup_clean_untracked, strip_refl,
    lookup_checkout_index, strip_refl, g1_staging.
Qed.

Lemma lookup_g3_outside (p : Path) : strip st p = None → g3 !! p = g1 !! p.
Proof.
  intros Hp. unfold g3, g2. by rewrite lookup_clean_untracked, Hp, lookup_checkout_index, Hp.
Qed.

(** After [checkout] and [clean], the work tree is what the index says. *)
Lemma lookup_g3_tracked (q : Path) :
  q ≠ [] → is_meta q = false → g3 !! (st ++ q) = tracked_node (index r) q.
Proof.
  intros Hq Hm. unfold g3, g2. destruct q as [|c q]; [done|].
  rewrite lookup_clean_untracked, strip_app, Hm.
  destruct (tracked_node (index r) (c :: q)) eqn:E; [|done].
  by rewrite lookup_checkout_index, strip_app, Hm, E.
Qed.

Lemma finish_command_body :
  ∃ out, run finish_command env w
         = (if signal_fails pid w then 1 else 0,
            out ++ (if signal_fails pid w
                    then [(Stderr, "Error: " +:+ exn_str ProcessLookupError)] else []),
            finished_world st od r pid w).
Proof.
  ready Hready.
  unfold run, finish_command.
  erewrite run_bind; [|unfold load_session_state; simpl; by rewrite Hses].
  assert (is_dir (files w) (cwd env) = true) as Hcd by (by rewrite Hcwd).
  erewrite run_bind; [|unfold Path_cwd; simpl; by rewrite Hcd].
  erewrite run_bind; [|unfold dict_get; by rewrite Hst].
  erewrite run_bind; [|unfold dict_get; by rewrite Hod].
  rewrite Hcwd, !Path_of_str_path_str, !resolve_wf by done.
  rewrite decide_False by (by intros ?).
  erewrite run_bind; [|reflexivity].
  erewrite run_bind; [|reflexivity].
  norm. unfold exists_. rewrite bool_decide_true by (by apply is_dir_Some).
  cbn [negb].
  erewrite run_bind; [|reflexivity].
  do 2 (erewrite run_bind; [|apply print_run]).
  set (tail := if 0 <? pid then os_kill pid else mret tt).
  assert (∃ co,
    (mkdir_parents od ;;
     subprocess_run git_checkout_all (Some st) true ;;
     subprocess_run git_clean_fd (Some st) true ;;
     print "Copying repository state to output directory..." ;;
     subprocess_run (rsync_mirror st od) None true ;;
     print "Cleaning up temporary repository..." ;;
     rmtree st ;;
     shell_pid ← int_of_get state "shell_pid" (-1);
     clear_session_state ;;
     print "" ;;
     print "Successfully applied changes!" ;;
     print ("Output directory: " +:+ path_str od) ;;
     print "" ;;
     print "Exiting temp shell and returning to original directory..." ;;
     (if 0 <? shell_pid then os_kill shell_pid else mret tt)) env
      (mkSys w ([] ++ [(Stdout, "Applying changes to " +:+ path_str od)] ++ [(Stdout, "")]))
    = (if signal_fails pid w then Raise ProcessLookupError else Ret tt,
       mkSys (finished_world st od r pid w) co)) as [co Hbody].
  { erewrite run_bind.
    2:{ unfold mkdir_parents. norm.
        pose proof (existsb_inits_false _ _ od Hfree) as Hf. rewrite strip_refl in Hf.
        unfold is_file in Hf. rewrite Hfree.
        destruct (files w !! od) as [[]|]; try reflexivity.
        by specialize (Hf ltac:(by eexists)). }
    norm. fold g1.
    erewrite run_bind.
    2:{ apply subprocess_run_ok; [done| |]; norm.
        - intros d [= <-]. unfold is_dir. rewrite g1_staging. apply Hdir.
        - cbn [tool]. norm. unfold repo_at. rewrite g1_repo.
          by rewrite decide_False. }
    norm. fold g2.
    erewrite run_bind.
    2:{ apply subprocess_run_ok; [done| |]; norm.
        - intros d [= <-]. unfold is_dir, g2.
          rewrite lookup_checkout_index, strip_refl, g1_staging. apply Hdir.
        - cbn [tool]. norm. unfold repo_at, g2.
          rewrite lookup_checkout_index, strip_app, is_meta_GIT, g1_repo. reflexivity. }
    norm. fold g2. fold g3.
    erewrite run_bind; [|apply print_run].
    erewrite run_bind.
    2:{ apply subprocess_run_ok; [done|done|]. cbn [tool]. norm. fold g2. fold g3.
        assert (is_dir g3 st = true) as ->.
        { unfold is_dir. rewrite lookup_g3_staging_root. apply Hdir. }
        assert (is_dir g3 od = true) as ->.
        { unfold is_dir. rewrite lookup_g3_outside by apply Hapart. apply g1_output. }
        reflexivity. }
    norm. fold g2. fold g3. fold g4.
    erewrite run_bind; [|apply print_run].
    erewrite run_bind.
    2:{ apply rmtree_run. norm. unfold is_dir, g4.
        rewrite lookup_mirror. destruct Hapart as [-> _].
        rewrite lookup_g3_staging_root. apply Hdir. }
    erewrite run_bind; [|by apply int_of_get_run].
    erewrite run_bind; [|apply clear_session_state_run].
    do 5 (erewrite run_bind; [|apply print_run]).
    norm. unfold signal_fails, finished_world, finished_files, os_kill. norm.
    fold g1 g2 g3 g4.
    destruct (0 <? pid); cbn [andb]; [|eexists; reflexivity].
    norm. case_bool_decide; cbn [negb].
    - unfold reap. norm. eexists; reflexivity.
    - rewrite difference_absent by done. eexists; reflexivity. }
  unfold tail. clear tail.
  destruct (signal_fails pid w).
  - erewrite try_except_raise; [|apply Hbody|reflexivity].
    erewrite run_bind; [|apply eprint_run].
    unfold sys_exit. by eexists.
  - erewrite try_except_ret; [|apply Hbody]. exists co. by rewrite app_nil_r.
Qed.

Lemma finished_staging_gone (q : Path) :
  finished_files st od (index r) (files w) !! (st ++ q) = None.
Proof. unfold finished_files. by rewrite lookup_remove_tree, strip_app. Qed.

(** Outside [.git], the output is what the index says. *)
Lemma finished_output (q : Path) :
  q ≠ [] → is_meta q = false →
  finished_files st od (index r) (files w) !! (od ++ q) = tracked_node (index r) q.
Proof.
  ready Hready. intros Hq Hm. unfold finished_files. fold g1 g2 g3.
  rewrite lookup_remove_tree, (apart_strip_app st od q) by by apply apart_sym.
  rewrite lookup_mirror, strip_app, Hm. destruct q as [|c q]; [done|].
  by apply lookup_g3_tracked.
Qed.

(** Through [.git], the output keeps what it had. *)
Lemma finished_output_meta (q : Path) :
  is_meta q = true →
  finished_files st od (index r) (files w) !! (od ++ q) = files w !! (od ++ q).
Proof.
  ready Hready. intros Hm. unfold finished_files. fold g1 g2 g3.
  assert (strip st (od ++ q) = None) as Hs by by apply apart_strip_app, apart_sym.
  rewrite lookup_remove_tree, Hs, lookup_mirror, strip_app, Hm.
  destruct q as [|c q]; [done|].
  rewrite lookup_g3_outside by done. unfold g1. rewrite lookup_make_dirs.
  destruct (files w !! (od ++ c :: q)); [done|].
  rewrite bool_decide_false; [done|]. by intros ?%strip_app_self.
Qed.
End finish_runs.

(* ===================================================================== *)
(** ** Code that leaves the world alone *)
(* ===================================================================== *)

Create HintDb frame.

Lemma frame_ret {A : Type} (a : A) : frame (mret a : M A).
Proof. intros env s r s' [= _ <-]. done. Qed.

Lemma frame_exit {A : Type} (c : Z) : frame (sys_exit c : M A).
Proof. intros env s r s' [= _ <-]. done. Qed.

Lemma frame_raise {A : Type} (e : Exn) : frame (raise e : M A).
Proof. intros env s r s' [= _ <-]. done. Qed.

Lemma frame_print (msg : string) : frame (print msg).
Proof. intros env s r s' [= _ <-]. done. Qed.

Lemma frame_eprint (msg : string) : frame (eprint msg).
Proof. intros env s r s' [= _ <-]. done. Qed.

Lemma frame_bind {A B : Type} (m : M A) (k : A → M B) :
  frame m → (∀ a, frame (k a)) → frame (m ≫= k).
Proof.
  intros Hm Hk env s r s'. unfold mbind, M_bind.
  destruct (m env s) as [[a|c|e] s1] eqn:E; apply Hm in E.
  - intros H%Hk. congruence.
  - intros [= _ <-]. done.
  - intros [= _ <-]. done.
Qed.

Lemma frame_try_except {A : Type} (body : M A) (h : Exn → option (M A)) :
  frame body → (∀ e k, h e = Some k → frame k) → frame (try_except body h).
Proof.
  intros Hb Hh env s r s'. unfold try_except.
  destruct (body env s) as [[a|c|e] s1] eqn:E; apply Hb in E.
  - intros [= _ <-]. done.
  - intros [= _ <-]. done.
  - destruct (h e) as [k|] eqn:Ek.
    + intros H. apply (Hh _ _ Ek) in H. congruence.
    + intros [= _ <-]. done.
Qed.

Lemma frame_dict_get (d : gmap string string) (k : string) : frame (dict_get d k).
Proof. unfold dict_get. destruct (d !! k); [apply frame_ret|apply frame_raise]. Qed.

Lemma frame_load_session_state : frame load_session_state.
Proof.
  intros env s r s'. unfold load_session_state.
  destruct (session (world s)); intros [= _ <-]; done.
Qed.

Lemma frame_Path_exists (p : Path) : frame (Path_exists p).
Proof. intros env s r s' [= _ <-]. done. Qed.

(** The status query reads the repository and writes nothing. *)
Lemma frame_git_status (dir : option Path) (check : bool) :
  frame (subprocess_run git_status_short dir check).
Proof.
  intros env s r s'. unfold subprocess_run.
  destruct (negb (installed env (program git_status_short))); [by intros [= _ <-]|].
  destruct (bool_decide (is_Some dir) && negb (is_dir (files (world s)) (default (cwd env) dir)));
    [by intros [= _ <-]|].
  cbn [tool]. destruct (repo_at (files (world s)) (default (cwd env) dir));
    destruct (check && negb (_ =? 0)); by intros [= _ <-].
Qed.

#[export] Hint Resolve frame_ret frame_exit frame_raise frame_print frame_eprint
  frame_dict_get frame_load_session_state frame_Path_exists frame_git_status : frame.

Lemma frame_status_command : frame status_command.
Proof.
  unfold status_command.
  repeat match goal with
         | |- frame (_ ≫= _) => apply frame_bind; [auto with frame|intros ?]
         end.
  match goal with |- frame (if ?b then _ else _) => destruct b end.
  - do 2 (apply frame_bind; [auto with frame|intros ?]).
    apply frame_bind; [|intros ?; auto with frame].
    apply frame_try_except.
    + apply frame_bind; [auto with frame|intros res].
      case_decide; auto with frame.
    + intros e k [= <-]. auto with frame.
  - auto with frame.
Qed.

Lemma run_frame (m : M unit) (env : Env) (w : World) : frame m → (run m env w).2 = w.
Proof.
  intros Hm. unfold run. destruct (m env (mkSys w [])) as [[a|c|e] s] eqn:E;
    apply Hm in E; done.
Qed.

(* ===================================================================== *)
(** ** What holds at the end of a command, whichever way it ends *)
(* ===================================================================== *)

Section ensures_rules.
Context {A : Type} (env : Env).
Implicit Types (P : World → Prop) (E : Z → World → Prop) (X : Exn → World → Prop).

Lemma ensures_bind {B : Type} P (m : M A) (k : A → M B) (Q1 : A → World → Prop)
    (Q : B → World → Prop) E X :
  ensures env P m Q1 E X →
  (∀ a, ensures env (Q1 a) (k a) Q E X) →
  ensures env P (m ≫= k) Q E X.
Proof.
  intros Hm Hk s Hs. specialize (Hm s Hs). unfold mbind, M_bind.
  destruct (m env s) as [[a|c|e] s1]; [|done..]. by apply Hk.
Qed.

Lemma ensures_weaken P P' (m : M A) (Q Q' : A → World → Prop) E E' X X' :
  ensures env P m Q E X →
  (∀ w, P' w → P w) → (∀ a w, Q a w → Q' a w) →
  (∀ c w, E c w → E' c w) → (∀ e w, X e w → X' e w) →
  ensures env P' m Q' E' X'.
Proof.
  intros Hm HP HQ HE HX s Hs. specialize (Hm s (HP _ Hs)).
  destruct (m env s) as [[a|c|e] s1]; eauto.
Qed.

Lemma ensures_pure (φ : Prop) P (m : M A) (Q : A → World → Prop) E X :
  (φ → ensures env P m Q E X) → ensures env (λ w, φ ∧ P w) m Q E X.
Proof. intros Hm s [Hφ Hs]. by apply Hm. Qed.

Lemma ensures_try_except P (body : M A) (h : Exn → option (M A))
    (Q : A → World → Prop) E X X' :
  ensures env P body Q E X' →
  (∀ e, match h e with
        | Some k => ensures env (X' e) k Q E X
        | None => ∀ w, X' e w → X e w
        end) →
  ensures env P (try_except body h) Q E X.
Proof.
  intros Hb Hh s Hs. specialize (Hb s Hs). unfold try_except.
  destruct (body env s) as [[a|c|e] s1]; [done..|].
  specialize (Hh e). destruct (h e) as [k|]; [by apply Hh|by apply Hh].
Qed.

Lemma ensures_ret P (a : A) (Q : A → World → Prop) E X :
  (∀ w, P w → Q a w) → ensures env P (mret a) Q E X.
Proof. intros H s Hs. by apply H. Qed.

Lemma ensures_exit P (c : Z) (Q : A → World → Prop) E X :
  (∀ w, P w → E c w) → ensures env P (sys_exit c) Q E X.
Proof. intros H s Hs. by apply H. Qed.
End ensures_rules.

Section ensures_steps.
Context (env : Env).
Implicit Types (P : World → Prop) (E : Z → World → Prop) (X : Exn → World → Prop).

(** A [print] in front changes nothing. *)
Lemma ensures_print {B : Type} P (msg : string) (k : unit → M B)
    (Q : B → World → Prop) E X :
  ensures env P (k tt) Q E X → ensures env P (print msg ≫= k) Q E X.
Proof. intros Hk. apply ensures_bind with (λ _, P); [|by intros []]. by intros s Hs. Qed.

Lemma ensures_eprint {B : Type} P (msg : string) (k : unit → M B)
    (Q : B → World → Prop) E X :
  ensures env P (k tt) Q E X → ensures env P (eprint msg ≫= k) Q E X.
Proof. intros Hk. apply ensures_bind with (λ _, P); [|by intros []]. by intros s Hs. Qed.

Lemma ensures_print_last P (msg : string) (Q : unit → World → Prop) E X :
  (∀ w, P w → Q tt w) → ensures env P (print msg) Q E X.
Proof. intros H s Hs. by apply H. Qed.

Lemma ensures_load_session_state P (Q : gmap string string → World → Prop) E X :
  (∀ st w, session w = Some st → P w → Q st w) →
  (∀ w, session w = None → P w → E 1 w) →
  ensures env P load_session_state Q E X.
Proof.
  intros HQ HE s Hs. unfold load_session_state.
  destruct (session (world s)) eqn:Hse; [by apply HQ|]. by apply HE.
Qed.

Lemma ensures_dict_get P (d : gmap string string) (k : string)
    (Q : string → World → Prop) E X :
  (∀ v w, d !! k = Some v → P w → Q v w) →
  (∀ w, d !! k = None → P w → X (KeyError k) w) →
  ensures env P (dict_get d k) Q E X.
Proof.
  intros HQ HX s Hs. unfold dict_get.
  destruct (d !! k) eqn:Hd; [by apply HQ|by apply HX].
Qed.

Lemma ensures_Path_cwd P (Q : Path → World → Prop) E X :
  (∀ w, is_dir (files w) (cwd env) = true → P w → Q (cwd env) w) →
  (∀ w, is_dir (files w) (cwd env) = false → P w → X (FileNotFoundError "") w) →
  ensures env P Path_cwd Q E X.
Proof.
  intros HQ HX s Hs. unfold Path_cwd.
  destruct (is_dir (files (world s)) (cwd env)) eqn:Hd; [by apply HQ|by apply HX].
Qed.

Lemma ensures_Path_exists P (p : Path) (Q : bool → World → Prop) E X :
  (∀ w, P w → Q (exists_ (files w) p) w) → ensures env P (Path_exists p) Q E X.
Proof. intros HQ s Hs. by apply HQ. Qed.

Lemma ensures_Path_is_dir P (p : Path) (Q : bool → World → Prop) E X :
  (∀ w, P w → Q (is_dir (files w) p) w) → ensures env P (Path_is_dir p) Q E X.
Proof. intros HQ s Hs. by apply HQ. Qed.

Lemma ensures_clear_session_state P (Q : unit → World → Prop) E X :
  (∀ w, P w → Q tt (set_session None w)) → ensures env P clear_session_state Q E X.
Proof.
  intros HQ s Hs. unfold clear_session_state. specialize (HQ _ Hs).
  destruct s as [[f [st|] pr] co]; done.
Qed.

Lemma ensures_save_session_state P (state : gmap string string)
    (Q : unit → World → Prop) E X :
  (∀ w, P w → Q tt (set_session (Some state) w)) →
  ensures env P (save_session_state state) Q E X.
Proof. intros HQ s Hs. by apply HQ. Qed.

Lemma ensures_rmtree P (p : Path) (Q : unit → World → Prop) E X :
  (∀ w, is_dir (files w) p = true → P w → Q tt (set_files (remove_tree p (files w)) w)) →
  (∀ e w, is_dir (files w) p = false → P w → X e w) →
  ensures env P (rmtree p) Q E X.
Proof.
  intros HQ HX s Hs. unfold rmtree, is_dir in *.
  destruct (files (world s) !! p) as [[]|] eqn:Hp.
  - apply HX; [by rewrite Hp|done].
  - apply HQ; [by rewrite Hp|done].
  - apply HQ; [by rewrite Hp|done].
  - apply HX; [by rewrite Hp|done].
Qed.

Lemma ensures_int_of_get P (d : gmap string string) (k : string) (dflt : Z)
    (Q : Z → World → Prop) E X :
  (∀ z w, P w → Q z w) → (∀ e w, P w → X e w) →
  ensures env P (int_of_get d k dflt) Q E X.
Proof.
  intros HQ HX s Hs. unfold int_of_get.
  destruct (d !! k) as [v|]; [|by apply HQ].
  destruct (int_of_str v); [by apply HQ|by apply HX].
Qed.

Lemma ensures_os_kill P (pid : Z) (Q : unit → World → Prop) E X :
  (∀ w, pid ∈ procs w → P w → Q tt (reap pid w)) →
  (∀ w, pid ∉ procs w → P w → X ProcessLookupError w) →
  ensures env P (os_kill pid) Q E X.
Proof.
  intros HQ HX s Hs. unfold os_kill. case_bool_decide; [by apply HQ|by apply HX].
Qed.

(** The steps that are not followed in detail never end the process. *)
Lemma ensures_subprocess_run P (c : Cmd) (dir : option Path) (check : bool)
    (Q : Z * string → World → Prop) E X :
  (∀ a w, Q a w) → (∀ e w, X e w) → ensures env P (subprocess_run c dir check) Q E X.
Proof.
  intros HQ HX s Hs. unfold subprocess_run.
  destruct (negb _); [done|]. destruct (_ && _); [done|].
  destruct (tool _ _ _) as [[rc out] w']. by destruct (_ && _).
Qed.

Lemma ensures_mkdir_parents P (p : Path) (Q : unit → World → Prop) E X :
  (∀ a w, Q a w) → (∀ e w, X e w) → ensures env P (mkdir_parents p) Q E X.
Proof.
  intros HQ HX s Hs. unfold mkdir_parents.
  destruct (files (world s) !! p) as [[]|]; try done; by destruct (existsb _ _).
Qed.

(** The two [except] clauses of the commands print and end with status 1. *)
Lemma ensures_report_and_exit P (e : Exn) (Q : unit → World → Prop) E X :
  (∀ w, P w → E 1 w) →
  match report_and_exit e with
  | Some k => ensures env P k Q E X
  | None => ∀ w, P w → X e w
  end.
Proof.
  intros HE. unfold report_and_exit.
  destruct e; (apply ensures_eprint, ensures_exit; exact HE).
Qed.
End ensures_steps.

(** What a status 0 of [run] means. *)
Lemma run_status_0 (m : M unit) (env : Env) (w w' : World) (out : list (Stream * string))
    (Q : World → Prop) :
  ensures env (λ v, v = w) m (λ _, Q) (λ c _, c = 1) (λ _ _, True) →
  run m env w = (0, out, w') → Q w'.
Proof.
  intros Hm. specialize (Hm (mkSys w []) eq_refl). unfold run.
  destruct (m env (mkSys w [])) as [[a|c|e] s].
  - by intros [= _ <-].
  - intros [= -> _ _]. done.
  - intros [=].
Qed.

(* ===================================================================== *)
(** ** The commands: what the specification says about them *)
(* ===================================================================== *)

(** A closed decidable statement, by evaluation. *)
Ltac decide_it := apply (bool_decide_unpack _); vm_compute; exact I.

(** C4.  [finish] from anywhere but the staging directory: it ends with
    status 1, having printed the error, the expected and the actual path,
    and the world (session record, files, processes) is what it was. *)
Theorem finish_wrong_location (env : Env) (w : World) (state : gmap string string)
    (tp od : string) :
  session w = Some state →
  is_dir (files w) (cwd env) = true →
  state !! "temp_repo_path" = Some tp →
  state !! "output_dir" = Some od →
  resolve (cwd env) ≠ resolve (Path_of_str tp) →
  run finish_command env w =
    (1, [(Stderr, "Error: finish must be run from within the temp repository");
         (Stderr, "Expected: " +:+ path_str (resolve (Path_of_str tp)));
         (Stderr, "Current:  " +:+ path_str (resolve (cwd env)))], w).
Proof.
  intros Hs Hcd Htp Hod Hne.
  unfold run, finish_command.
  erewrite run_bind; [|unfold load_session_state; simpl; by rewrite Hs].
  erewrite run_bind; [|unfold Path_cwd; simpl; by rewrite Hcd].
  erewrite run_bind; [|unfold dict_get; by rewrite Htp].
  erewrite run_bind; [|unfold dict_get; by rewrite Hod].
  rewrite decide_True by done. reflexivity.
Qed.

Lemma finish_wrong_location_witness :
  run finish_command env_home0 w_active =
    (1, [(Stderr, "Error: finish must be run from within the temp repository");
         (Stderr, "Expected: /tmp/dir-merge-k3x9");
         (Stderr, "Current:  /home/u")], w_active).
Proof.
  apply (finish_wrong_location env_home0 w_active record0 "/tmp/dir-merge-k3x9" "/home/u/src");
    decide_it.
Defined.

(** [finish] in a working directory that has been removed: [Path.cwd()]
    raises outside the [try], the command ends with a traceback and status
    1, and nothing is changed. *)
Lemma finish_in_removed_directory (env : Env) (w : World) (state : gmap string string) :
  session w = Some state →
  is_dir (files w) (cwd env) = false →
  run finish_command env w =
    (1, [(Stderr, "Traceback (most recent call last): [Errno 2] No such file or directory")],
     w).
Proof.
  intros Hs Hcd. unfold run, finish_command.
  erewrite run_bind; [|unfold load_session_state; simpl; by rewrite Hs].
  erewrite run_bind_raise; cycle 1.
  { unfold Path_cwd. simpl. rewrite Hcd. reflexivity. }
  reflexivity.
Qed.

(** C5.  What the code does where the claim asks for the report of a
    missing staging directory: with a session record whose staging
    directory no longer exists, [finish] never reaches the test that would
    report it and clear the record.  Typed in a directory that exists, it
    reports the wrong location; typed in the removed staging directory
    itself, it ends with the traceback of [Path.cwd()].  Either way the
    status is 1 and the world, the session record included, stays as it
    was. *)
Theorem finish_missing_staging_keeps_record (env : Env) (w : World)
    (state : gmap string string) (tp od : string) :
  session w = Some state →
  state !! "temp_repo_path" = Some tp →
  state !! "output_dir" = Some od →
  wf_path (cwd env) = true →
  exists_ (files w) (resolve (Path_of_str tp)) = false →
  run finish_command env w =
    (1,
     if is_dir (files w) (cwd env)
     then [(Stderr, "Error: finish must be run from within the temp repository");
           (Stderr, "Expected: " +:+ path_str (resolve (Path_of_str tp)));
           (Stderr, "Current:  " +:+ path_str (resolve (cwd env)))]
     else [(Stderr, "Traceback (most recent call last): [Errno 2] No such file or directory")],
     w).
Proof.
  intros Hs Htp Hod Hwf Hex. destruct (is_dir (files w) (cwd env)) eqn:Hcd.
  - assert (resolve (cwd env) ≠ resolve (Path_of_str tp)) as Hne.
    { rewrite resolve_wf by done. intros Heq. rewrite <- Heq in Hex.
      apply bool_decide_eq_false in Hex. by apply Hex, is_dir_Some. }
    unfold run, finish_command.
    erewrite run_bind; [|unfold load_session_state; simpl; by rewrite Hs].
    erewrite run_bind; [|unfold Path_cwd; simpl; by rewrite Hcd].
    erewrite run_bind; [|unfold dict_get; by rewrite Htp].
    erewrite run_bind; [|unfold dict_get; by rewrite Hod].
    rewrite decide_True by done. reflexivity.
  - by apply finish_in_removed_directory with state.
Qed.

Lemma finish_missing_staging_keeps_record_witness :
  run finish_command env_in0 w_lost =
    (1, [(Stderr, "Traceback (most recent call last): [Errno 2] No such file or directory")],
     w_lost).
Proof.
  apply (finish_missing_staging_keeps_record env_in0 w_lost record0
           "/tmp/dir-merge-k3x9" "/home/u/src"); decide_it.
Defined.

(** The same world, [finish] typed in [/home/u]: the wrong location is
    reported and the session record stays. *)
Lemma finish_staging_missing_elsewhere :
  session w_lost = Some record0 ∧
  exists_ (files w_lost) st0 = false ∧
  run finish_command env_home0 w_lost =
    (1, [(Stderr, "Error: finish must be run from within the temp repository");
         (Stderr, "Expected: /tmp/dir-merge-k3x9");
         (Stderr, "Current:  /home/u")], w_lost).
Proof. repeat split; decide_it. Qed.

(** [shutil.rmtree] has no [ignore_errors] here: on a path that is absent
    it raises and changes nothing. *)
Lemma rmtree_absent (p : Path) (env : Env) (s : Sys) :
  files (world s) !! p = None →
  rmtree p env s = (Raise (FileNotFoundError (path_str p)), s).
Proof. intros Hp. unfold rmtree. by rewrite Hp. Qed.

(** Removing a directory works once; the second time is the error. *)
Lemma rmtree_twice (p : Path) (env : Env) (w : World) (co : list (Stream * string)) :
  is_dir (files w) p = true →
  (rmtree p ;; rmtree p) env (mkSys w co)
  = (Raise (FileNotFoundError (path_str p)),
     mkSys (set_files (remove_tree p (files w)) w) co).
Proof.
  intros Hd. erewrite run_bind; [|by apply rmtree_run].
  apply rmtree_absent. norm. by rewrite lookup_remove_tree, strip_refl.
Qed.

(** C8.  [status], any number of times: the world (session record, files
    with the staging repository, processes) is what it was. *)
Theorem status_command_readonly (env : Env) (w : World) (n : nat) :
  Nat.iter n (λ w', (run status_command env w').2) w = w.
Proof.
  induction n as [|n IH]; [done|]. simpl. rewrite IH.
  apply run_frame, frame_status_command.
Qed.

(** [status] with a record, a staging directory, and a live query that
    fails: what is printed, step by step. *)
Lemma status_command_failed_query (env : Env) (w : World)
    (state : gmap string string) (tp oc od sd td : string) :
  session w = Some state →
  state !! "temp_repo_path" = Some tp →
  state !! "original_cwd" = Some oc →
  state !! "output_dir" = Some od →
  state !! "source_dir" = Some sd →
  state !! "target_dir" = Some td →
  exists_ (files w) (Path_of_str tp) = true →
  query_raises env w (Path_of_str tp) = true ∨ repo_at (files w) (Path_of_str tp) = None →
  run status_command env w =
    (0, status_header tp oc od sd td
        ++ [(Stdout, "Git status in temp repo:"); (Stdout, "")]
        ++ (if query_raises env w (Path_of_str tp) then [] else [(Stdout, "  (no changes)")])
        ++ [(Stdout, "")],
     w).
Proof.
  intros Hs Htp Hoc Hod Hsd Htd Hex Hfail.
  unfold run, status_command.
  unfold mbind at 1, M_bind at 1, load_session_state. simpl. rewrite Hs.
  do 2 (erewrite run_bind; [|apply print_run]).
  erewrite run_bind; [|unfold dict_get; by rewrite Htp].
  do 2 (erewrite run_bind; [|apply print_run]).
  erewrite run_bind; [|unfold dict_get; by rewrite Hoc].
  erewrite run_bind; [|apply print_run].
  erewrite run_bind; [|unfold dict_get; by rewrite Hod].
  erewrite run_bind; [|apply print_run].
  erewrite run_bind; [|unfold dict_get; by rewrite Hsd].
  erewrite run_bind; [|apply print_run].
  erewrite run_bind; [|unfold dict_get; by rewrite Htd].
  do 2 (erewrite run_bind; [|apply print_run]).
  erewrite run_bind; [|reflexivity]. norm. rewrite Hex.
  do 2 (erewrite run_bind; [|apply print_run]).
  unfold query_raises in *. unfold mbind, M_bind, try_except, subprocess_run. norm.
  change (program git_status_short) with "git".
  destruct (installed env "git"); simpl; [|done].
  destruct (is_dir (files w) (Path_of_str tp)); simpl; [|by destruct (exists_ _ _)].
  destruct Hfail as [|Hrepo]; [done|]. by rewrite Hrepo.
Qed.

(** C9, as the code has it.  [status] with a record and a staging directory
    whose live query fails: the failure is swallowed, the command ends with
    status 0 and the world is untouched.  Nothing reports the status as
    unavailable: when the query cannot be started, the heading of the live
    status is followed by no line about it at all. *)
Theorem status_query_failure_swallowed (env : Env) (w : World)
    (state : gmap string string) (tp oc od sd td : string) :
  session w = Some state →
  state !! "temp_repo_path" = Some tp →
  state !! "original_cwd" = Some oc →
  state !! "output_dir" = Some od →
  state !! "source_dir" = Some sd →
  state !! "target_dir" = Some td →
  exists_ (files w) (Path_of_str tp) = true →
  query_raises env w (Path_of_str tp) = true ∨ repo_at (files w) (Path_of_str tp) = None →
  ∃ out,
    run status_command env w = (0, out, w) ∧
    (query_raises env w (Path_of_str tp) = true →
     out = status_header tp oc od sd td
           ++ [(Stdout, "Git status in temp repo:"); (Stdout, ""); (Stdout, "")]).
Proof.
  intros Hs Htp Hoc Hod Hsd Htd Hex Hfail.
  eexists. split.
  - by apply status_command_failed_query with state.
  - by intros ->.
Qed.

Lemma status_query_failure_swallowed_witness :
  ∃ out,
    run status_command env_nogit w_active = (0, out, w_active) ∧
    (query_raises env_nogit w_active (Path_of_str "/tmp/dir-merge-k3x9") = true →
     out = status_header "/tmp/dir-merge-k3x9" "/home/u" "/home/u/src" "/home/u/src"
                         "/home/u/tgt"
           ++ [(Stdout, "Git status in temp repo:"); (Stdout, ""); (Stdout, "")]).
Proof.
  apply (status_query_failure_swallowed env_nogit w_active record0);
    first [decide_it | left; decide_it].
Defined.

(** C9, as stated, fails: git cannot be executed, so the live query of
    [status] cannot be started; the command prints the heading of the live
    status and then nothing but the closing empty line, no word of the
    status being unavailable. *)
Lemma status_failure_not_reported :
  installed env_nogit "git" = false ∧
  exists_ (files w_active) st0 = true ∧
  run status_command env_nogit w_active =
    (0, status_header "/tmp/dir-merge-k3x9" "/home/u" "/home/u/src" "/home/u/src"
                      "/home/u/tgt"
        ++ [(Stdout, "Git status in temp repo:"); (Stdout, ""); (Stdout, "")],
     w_active).
Proof. repeat split; decide_it. Qed.

(** However [finish] ends, it ends with status 0 only after having found the
    recorded staging directory and removed it, with the record cleared after
    the removal. *)
Lemma finish_command_ensures (env : Env) (w : World) (state : gmap string string)
    (tp : string) :
  session w = Some state →
  state !! "temp_repo_path" = Some tp →
  ensures env (λ v, v = w) finish_command
    (λ _ w', exists_ (files w) (resolve (Path_of_str tp)) = true ∧
             files w' !! resolve (Path_of_str tp) = None ∧ session w' = None)
    (λ c _, c = 1) (λ _ _, True).
Proof.
  intros Hs Htp. unfold finish_command.
  apply ensures_bind with (λ st v, st = state ∧ v = w).
  { apply ensures_load_session_state; [|done]. intros st v Hv ->. split; congruence. }
  intros st. apply ensures_pure. intros ->.
  apply ensures_bind with (λ _ v, v = w); [by apply ensures_Path_cwd|]. intros here.
  apply ensures_bind with (λ t v, t = tp ∧ v = w).
  { apply ensures_dict_get; [|done]. intros t v Ht ->. split; congruence. }
  intros t. apply ensures_pure. intros ->.
  apply ensures_bind with (λ _ v, v = w); [by apply ensures_dict_get|]. intros od.
  apply ensures_bind with (λ _ v, v = w).
  { destruct (decide _); [|by apply ensures_ret].
    do 3 apply ensures_eprint. by apply ensures_exit. }
  intros [].
  apply ensures_bind with (λ b v, b = exists_ (files w) (resolve (Path_of_str tp)) ∧ v = w).
  { apply ensures_Path_exists. by intros v ->. }
  intros found. apply ensures_pure. intros ->.
  destruct (exists_ (files w) (resolve (Path_of_str tp))) eqn:Hex; simpl.
  2: { apply ensures_bind with (λ _ _, False); [|by intros [] s []].
       apply ensures_eprint.
       apply ensures_bind with (λ _ _, True); [by apply ensures_clear_session_state|].
       intros []. by apply ensures_exit. }
  apply ensures_bind with (λ _ v, v = w); [by apply ensures_ret|]. intros [].
  do 2 apply ensures_print.
  apply ensures_try_except with (λ _ _, True);
    [|intros e; by apply ensures_report_and_exit].
  apply ensures_bind with (λ _ _, True); [by apply ensures_mkdir_parents|]. intros [].
  apply ensures_bind with (λ _ _, True); [by apply ensures_subprocess_run|]. intros _.
  apply ensures_bind with (λ _ _, True); [by apply ensures_subprocess_run|]. intros _.
  apply ensures_print.
  apply ensures_bind with (λ _ _, True); [by apply ensures_subprocess_run|]. intros _.
  apply ensures_print.
  apply ensures_bind with (λ _ v, files v !! resolve (Path_of_str tp) = None).
  { apply ensures_rmtree; [|done]. intros v _ _. norm.
    by rewrite lookup_remove_tree, strip_refl. }
  intros [].
  apply ensures_bind with (λ _ v, files v !! resolve (Path_of_str tp) = None);
    [by apply ensures_int_of_get|]. intros pid.
  apply ensures_bind
    with (λ _ v, files v !! resolve (Path_of_str tp) = None ∧ session v = None).
  { apply ensures_clear_session_state. by intros v Hv. }
  intros []. do 5 apply ensures_print.
  destruct (0 <? pid)%Z.
  - apply ensures_os_kill; [|done]. by intros v _ [Hf Hv].
  - apply ensures_ret. by intros v [Hf Hv].
Qed.

(** [finish] with a record whose staging directory is absent: status 1, and
    no file is touched. *)
Lemma finish_absent_staging_fails (env : Env) (w : World) (state : gmap string string)
    (tp : string) :
  session w = Some state →
  state !! "temp_repo_path" = Some tp →
  exists_ (files w) (resolve (Path_of_str tp)) = false →
  ∃ out w', run finish_command env w = (1, out, w') ∧ files w' = files w.
Proof.
  intros Hs Htp Hex.
  destruct (is_dir (files w) (cwd env)) eqn:Hcd; cycle 1.
  { do 2 eexists. split; [by apply finish_in_removed_directory with state|done]. }
  unfold run, finish_command.
  erewrite run_bind; [|unfold load_session_state; simpl; by rewrite Hs].
  erewrite run_bind; [|unfold Path_cwd; simpl; by rewrite Hcd].
  erewrite run_bind; [|unfold dict_get; by rewrite Htp].
  destruct (state !! "output_dir") as [od|] eqn:Hod; cycle 1.
  { erewrite run_bind_raise; [|unfold dict_get; by rewrite Hod]. by do 2 eexists. }
  erewrite run_bind; [|unfold dict_get; by rewrite Hod].
  destruct (decide (resolve (cwd env) ≠ resolve (Path_of_str tp))) as [Hne|Heq].
  { by do 2 eexists. }
  erewrite run_bind; [|reflexivity].
  erewrite run_bind; [|reflexivity]. norm. rewrite Hex. simpl.
  erewrite run_bind_exit; cycle 1.
  { erewrite run_bind; [|apply eprint_run].
    erewrite run_bind; [|apply clear_session_state_run]. reflexivity. }
  by do 2 eexists.
Qed.

(** C7.  The removal of the staging directory is guarded, not idempotent.
    [finish] with a record whose staging directory is already absent is an
    error: it ends with status 1 and touches no file.  Whenever [finish]
    ends with status 0, the staging directory was there when it started and
    is gone afterwards, and the record is cleared. *)
Theorem finish_removes_only_existing_staging (env : Env) (w : World)
    (state : gmap string string) (tp : string) :
  session w = Some state →
  state !! "temp_repo_path" = Some tp →
  (exists_ (files w) (resolve (Path_of_str tp)) = false →
   ∃ out w', run finish_command env w = (1, out, w') ∧ files w' = files w)
  ∧ (∀ out w', run finish_command env w = (0, out, w') →
       exists_ (files w) (resolve (Path_of_str tp)) = true ∧
       files w' !! resolve (Path_of_str tp) = None ∧
       session w' = None).
Proof.
  intros Hs Htp. split.
  - by apply finish_absent_staging_fails with state.
  - intros out w' Hrun.
    exact (run_status_0 finish_command env w w' out _
             (finish_command_ensures env w state tp Hs Htp) Hrun).
Qed.

Lemma finish_removes_only_existing_staging_witness :
  exists_ (files w_shell) (resolve (Path_of_str "/tmp/dir-merge-k3x9")) = true ∧
  files (run finish_command env_in0 w_shell).2
    !! resolve (Path_of_str "/tmp/dir-merge-k3x9") = None ∧
  session (run finish_command env_in0 w_shell).2 = None.
Proof.
  apply (proj2 (finish_removes_only_existing_staging env_in0 w_shell record0
                  "/tmp/dir-merge-k3x9" ltac:(decide_it) ltac:(decide_it))
           (run finish_command env_in0 w_shell).1.2).
  decide_it.
Defined.

(** C7, as stated, fails.  The staging directory of the session is already
    absent: the removal as [finish] makes it, [shutil.rmtree] of the recorded
    path, raises and is no silent no-op; and [finish] itself, typed in the
    shell of the session, is an error with status 1. *)
Lemma removal_of_absent_staging_is_error :
  session w_lost = Some record0 ∧
  exists_ (files w_lost) st0 = false ∧
  rmtree st0 env_in0 (mkSys w_lost [])
    = (Raise (FileNotFoundError "/tmp/dir-merge-k3x9"), mkSys w_lost []) ∧
  (run finish_command env_in0 w_lost).1.1 = 1%Z ∧
  (run finish_command env_home0 w_lost).1.1 = 1%Z.
Proof. repeat split; decide_it. Qed.

Lemma load_without_session (m : gmap string string → M unit) (env : Env) (w : World) :
  session w = None →
  run (load_session_state ≫= m) env w
  = (1, [(Stderr, "Error: No active merge session")], w).
Proof.
  intros Hs. unfold run. erewrite run_bind_exit; cycle 1.
  { unfold load_session_state. simpl. rewrite Hs. reflexivity. }
  done.
Qed.

(** C3.  [finish] in a session with unstaged edits: whatever the work tree
    of the staging directory holds, the output gets the index.  A tracked
    file arrives with its staged content, not with the raw edit, and a path
    that is not tracked arrives as no file at all. *)
Theorem finish_discards_unstaged (env : Env) (w : World) (state : gmap string string)
    (st od : Path) (r : Repo) (pid : Z) :
  finish_ready env w state st od r pid →
  ∃ code out w',
    run finish_command env w = (code, out, w') ∧
    (∀ q c, q ≠ [] → is_meta q = false → index r !! q = Some c →
            files w' !! (od ++ q) = Some (File c)) ∧
    (∀ q c, q ≠ [] → is_meta q = false → index r !! q = None →
            files w' !! (od ++ q) ≠ Some (File c)).
Proof.
  intros Hready. destruct (finish_command_body _ _ _ _ _ _ _ Hready) as [out Hrun].
  do 3 eexists. split; [exact Hrun|]. cbn [finished_world files]. split.
  - intros q c Hq Hm Hi. rewrite (finished_output _ _ _ _ _ _ _ Hready) by done.
    unfold tracked_node. by rewrite Hi.
  - intros q c Hq Hm Hi. rewrite (finished_output _ _ _ _ _ _ _ Hready) by done.
    unfold tracked_node. rewrite Hi. by case_bool_decide.
Qed.

Lemma finish_discards_unstaged_witness :
  ∃ code out w',
    run finish_command env_in0 w_active = (code, out, w') ∧
    (∀ q c, q ≠ [] → is_meta q = false → index repo0 !! q = Some c →
            files w' !! (src0 ++ q) = Some (File c)) ∧
    (∀ q c, q ≠ [] → is_meta q = false → index repo0 !! q = None →
            files w' !! (src0 ++ q) ≠ Some (File c)).
Proof.
  apply (finish_discards_unstaged env_in0 w_active record0 st0 src0 repo0 4242).
  split; decide_it.
Defined.

(** C6, as the code has it.  [finish] whose final signal finds no such
    process: the output is mirrored, the staging directory removed and the
    session record cleared, and then the failure is caught by the handler
    of the command, which prints it and ends with status 1. *)
Theorem finish_signal_failure (env : Env) (w : World) (state : gmap string string)
    (st od : Path) (r : Repo) (pid : Z) :
  finish_ready env w state st od r pid →
  signal_fails pid w = true →
  ∃ out, run finish_command env w
         = (1, out ++ [(Stderr, "Error: [Errno 3] No such process")],
            finished_world st od r pid w).
Proof.
  intros Hready Hfail. destruct (finish_command_body _ _ _ _ _ _ _ Hready) as [out Hrun].
  rewrite Hfail in Hrun. by exists out.
Qed.

Lemma finish_signal_failure_witness :
  ∃ out, run finish_command env_in0 w_active
         = (1, out ++ [(Stderr, "Error: [Errno 3] No such process")],
            finished_world st0 src0 repo0 4242 w_active).
Proof.
  apply (finish_signal_failure env_in0 w_active record0 st0 src0 repo0 4242).
  - split; decide_it.
  - decide_it.
Defined.

(** C6, as stated, fails: the shell of the session is gone; [finish]
    mirrors the index to the output, removes the staging directory, clears
    the session record, and ends with status 1. *)
Lemma finish_fails_on_dead_shell :
  (run finish_command env_in0 w_active).1.1 = 1 ∧
  files (run finish_command env_in0 w_active).2 !! (src0 ++ ["a.txt"]) = Some (File "1") ∧
  files (run finish_command env_in0 w_active).2 !! st0 = None ∧
  session (run finish_command env_in0 w_active).2 = None.
Proof. repeat split; decide_it. Qed.

(** C10.  [finish] that gets as far as the mirror: the staging directory is
    removed and the session record cleared before the signal, so the world
    it leaves is the same whether or not the signal finds its process; in
    it there is no session and no staging directory, and a further [finish]
    or [status] ends with the error of a missing session. *)
Theorem finish_ends_session (env env' : Env) (w : World) (state : gmap string string)
    (st od : Path) (r : Repo) (pid : Z) :
  finish_ready env w state st od r pid →
  ∃ code out,
    run finish_command env w = (code, out, finished_world st od r pid w) ∧
    session (finished_world st od r pid w) = None ∧
    (∀ q, files (finished_world st od r pid w) !! (st ++ q) = None) ∧
    run finish_command env' (finished_world st od r pid w)
      = (1, [(Stderr, "Error: No active merge session")], finished_world st od r pid w) ∧
    run status_command env' (finished_world st od r pid w)
      = (1, [(Stderr, "Error: No active merge session")], finished_world st od r pid w).
Proof.
  intros Hready. destruct (finish_command_body _ _ _ _ _ _ _ Hready) as [out Hrun].
  do 2 eexists. split; [exact Hrun|]. split; [done|]. split.
  - intros q. apply (finished_staging_gone w st od r).
  - split; by apply load_without_session.
Qed.

Lemma finish_ends_session_witness :
  ∃ code out,
    run finish_command env_in0 w_active = (code, out, finished_world st0 src0 repo0 4242 w_active) ∧
    session (finished_world st0 src0 repo0 4242 w_active) = None ∧
    (∀ q, files (finished_world st0 src0 repo0 4242 w_active) !! (st0 ++ q) = None) ∧
    run finish_command env_home0 (finished_world st0 src0 repo0 4242 w_active)
      = (1, [(Stderr, "Error: No active merge session")],
         finished_world st0 src0 repo0 4242 w_active) ∧
    run status_command env_home0 (finished_world st0 src0 repo0 4242 w_active)
      = (1, [(Stderr, "Error: No active merge session")],
         finished_world st0 src0 repo0 4242 w_active).
Proof.
  apply (finish_ends_session env_in0 env_home0 w_active record0 st0 src0 repo0 4242).
  split; decide_it.
Defined.

(* ===================================================================== *)
(** ** [merge] and the session that is already there; [merge] then [finish] *)
(* ===================================================================== *)

(** C1, as the code has it.  [merge] while a session record exists: the
    record is never read; with valid directories and working tools the
    command builds a fresh staging directory, overwrites the record with
    that of the new session and hands the world to the shell; no path
    outside the fresh staging directory is altered on the way (an existing
    staging directory included). *)
Theorem merge_overwrites_session (args : MergeArgs) (env : Env) (w : World)
    (name : string) (pid : Z) (old : gmap string string) :
  merge_ready args env w name pid →
  session w = Some old →
  ∃ out,
    run (merge_command args) env w
      = (0, out, reap pid (user env (staged_world args env w name pid))) ∧
    session (staged_world args env w name pid)
      = Some (<["shell_pid" := str_of_Z pid]> (session_record args env (staging_dir env name))) ∧
    (∀ p, strip (staging_dir env name) p = None →
          files (staged_world args env w name pid) !! p = files w !! p).
Proof.
  intros Hready _. destruct (merge_command_body _ _ _ _ _ Hready) as [out Hrun].
  exists out. split; [exact Hrun|]. split; [done|].
  intros p Hp. by apply staged_outside.
Qed.

Lemma merge_overwrites_session_witness :
  ∃ out,
    run (merge_command args0) env_home0 w_active
      = (0, out, reap 4343 (user env_home0 (staged_world args0 env_home0 w_active "p7q2" 4343))) ∧
    session (staged_world args0 env_home0 w_active "p7q2" 4343)
      = Some (<["shell_pid" := str_of_Z 4343]>
                (session_record args0 env_home0 (staging_dir env_home0 "p7q2"))) ∧
    (∀ p, strip (staging_dir env_home0 "p7q2") p = None →
          files (staged_world args0 env_home0 w_active "p7q2" 4343) !! p = files w_active !! p).
Proof.
  apply (merge_overwrites_session args0 env_home0 w_active "p7q2" 4343 record0).
  - split; try decide_it. exists ["a.txt"], "1". decide_it.
  - decide_it.
Defined.

(** C1, as stated, fails: a session is active, and a second [merge] ends
    with status 0 and has replaced the record of the first session
    (staging directory [dir-merge-k3x9]) by its own ([dir-merge-p7q2]). *)
Lemma merge_while_active_overwrites :
  session w_active = Some record0 ∧
  record0 !! "temp_repo_path" = Some "/tmp/dir-merge-k3x9" ∧
  (run (merge_command args0) env_home0 w_active).1.1 = 0 ∧
  session (run (merge_command args0) env_home0 w_active).2 ≫= (.!! "temp_repo_path")
    = Some "/tmp/dir-merge-p7q2".
Proof. repeat split; decide_it. Qed.

Lemma existsb_is_file_outside (fs fs' : gmap Path Node) (st od : Path) :
  strip st od = None →
  (∀ p, strip st p = None → fs' !! p = fs !! p) →
  existsb (is_file fs) (inits od) = false →
  existsb (is_file fs') (inits od) = false.
Proof.
  intros Hout Hsame Hfree. destruct (existsb (is_file fs') (inits od)) eqn:E; [|done].
  apply existsb_exists in E as (a & Ha & Hf).
  apply list_elem_of_In, inits_strip in Ha as [x Hx].
  assert (strip st a = None) as Hs.
  { destruct (strip st a) as [y|] eqn:Ey; [|done].
    apply strip_Some in Ey, Hx. subst. by rewrite <- app_assoc, strip_app in Hout. }
  assert (existsb (is_file fs) (inits od) = true) as Ht; [|congruence].
  apply existsb_exists. exists a. split.
  - apply list_elem_of_In, elem_of_inits. by eexists.
  - unfold is_file in *. by rewrite <- Hsame.
Qed.

Lemma lookup_session_record (args : MergeArgs) (env : Env) (st : Path) (v : string) :
  let state := <["shell_pid" := v]> (session_record args env st) in
  state !! "temp_repo_path" = Some (path_str st) ∧
  state !! "output_dir" = Some (path_str (output_of args)) ∧
  state !! "shell_pid" = Some v.
Proof.
  unfold session_record. split; [|split]; reflexivity.
Qed.

(** In the world the shell starts in, [finish] typed in the staging
    directory gets through. *)
Lemma staged_finish_ready (args : MergeArgs) (env env_in : Env) (w : World)
    (name : string) (pid : Z) :
  merge_ready args env w name pid →
  wf_path (staging_dir env name) = true →
  apart (output_of args) (staging_dir env name) →
  existsb (is_file (files w)) (inits (output_of args)) = false →
  cwd env_in = staging_dir env name →
  installed env_in "git" = true →
  installed env_in "rsync" = true →
  finish_ready env_in (staged_world args env w name pid)
    (<["shell_pid" := str_of_Z pid]> (session_record args env (staging_dir env name)))
    (staging_dir env name) (output_of args)
    (base_repo (worktree_files (source args) (files w))) pid.
Proof.
  intros Hready Hwf Hapart Hfree Hcwd Hgit Hrsync.
  destruct (lookup_session_record args env (staging_dir env name) (str_of_Z pid))
    as (Htp & Hod & Hpid).
  split; try done.
  - unfold recorded_pid. rewrite Hpid. apply int_of_str_of_Z.
  - by destruct Hready.
  - by apply staged_dir.
  - by apply staged_repo.
  - by apply idx_nonempty with env name pid.
  - apply existsb_is_file_outside with (files w) (staging_dir env name); [apply Hapart| |done].
    intros p Hp. by apply staged_outside.
Qed.

(** C2, as the code has it.  [merge] on two directories, then [finish] at
    once.  The shell starts in a world where the staging directory holds,
    outside [.git], exactly what the target holds, over a repository whose
    only commit, BASE, and whose index are the regular files of the source.
    [finish] typed there at once ends with status 0, clears the session and
    removes the staging directory; the overlay was never staged, so the
    output gets, outside [.git], what the index says, the files of the
    source and not those of the target; through [.git] the output keeps
    what it had. *)
Theorem start_then_finish (args : MergeArgs) (env env_in : Env) (w : World)
    (name : string) (pid : Z) :
  merge_ready args env w name pid →
  wf_path (staging_dir env name) = true →
  apart (output_of args) (staging_dir env name) →
  existsb (is_file (files w)) (inits (output_of args)) = false →
  cwd env_in = staging_dir env name →
  installed env_in "git" = true →
  installed env_in "rsync" = true →
  (∃ out, run (merge_command args) env w
          = (0, out, reap pid (user env (staged_world args env w name pid)))) ∧
  (∀ q, q ≠ [] → is_meta q = false →
        files (staged_world args env w name pid) !! (staging_dir env name ++ q)
        = files w !! (target args ++ q)) ∧
  repo_at (files (staged_world args env w name pid)) (staging_dir env name)
    = Some (base_repo (worktree_files (source args) (files w))) ∧
  ∃ out' w',
    run finish_command env_in (staged_world args env w name pid) = (0, out', w') ∧
    session w' = None ∧
    (∀ q, files w' !! (staging_dir env name ++ q) = None) ∧
    (∀ q, q ≠ [] → is_meta q = false →
          files w' !! (output_of args ++ q)
          = tracked_node (worktree_files (source args) (files w)) q) ∧
    (∀ q c, is_meta q = false →
            (files w' !! (output_of args ++ q) = Some (File c)
             ↔ files w !! (source args ++ q) = Some (File c))) ∧
    (∀ q, is_meta q = true → files w' !! (output_of args ++ q) = files w !! (output_of args ++ q)).
Proof.
  intros Hready Hwf Hapart Hfree Hcwd Hgit Hrsync.
  pose proof (staged_finish_ready _ _ _ _ _ _ Hready Hwf Hapart Hfree Hcwd Hgit Hrsync) as Hfin.
  split; [by apply merge_command_body|].
  split; [intros q Hq Hm; by apply staged_overlay|].
  split; [by apply staged_repo|].
  destruct (finish_command_body _ _ _ _ _ _ _ Hfin) as [out Hrun].
  assert (signal_fails pid (staged_world args env w name pid) = false) as Hsig.
  { unfold signal_fails, staged_world. cbn [procs].
    destruct (0 <? pid); [|done]. cbn [andb].
    rewrite bool_decide_true; [done|]. apply elem_of_union_l, elem_of_singleton. done. }
  rewrite Hsig, app_nil_r in Hrun.
  do 2 eexists. split; [exact Hrun|]. cbn [finished_world files session base_repo index].
  assert (∀ q, q ≠ [] → is_meta q = false →
            finished_files (staging_dir env name) (output_of args)
              (worktree_files (source args) (files w))
              (files (staged_world args env w name pid)) !! (output_of args ++ q)
            = tracked_node (worktree_files (source args) (files w)) q) as Hout.
  { intros q Hq Hm. by apply (finished_output _ _ _ _ _ _ _ Hfin). }
  split; [done|]. split; [|split; [exact Hout|split]].
  - intros q. unfold finished_files. by rewrite lookup_remove_tree, strip_app.
  - intros q c Hm. destruct (decide (q = [])) as [->|Hq].
    + rewrite !app_nil_r. unfold finished_files.
      rewrite lookup_remove_tree. destruct Hapart as [_ ->].
      rewrite lookup_mirror, strip_refl.
      pose proof (mr_source _ _ _ _ _ Hready) as [->|[r ->]]%is_dir_node; by split.
    + rewrite Hout by done. unfold tracked_node.
      rewrite lookup_worktree_files, Hm.
      destruct (files w !! (source args ++ q)) as [[]|]; [done|..];
        (split; [case_bool_decide; discriminate|discriminate]).
  - intros q Hm.
    rewrite (finished_output_meta _ _ _ _ _ _ _ Hfin) by done.
    apply staged_outside. by apply apart_strip_app, apart_sym.
Qed.

Lemma start_then_finish_witness :
  (∃ out, run (merge_command args0) (env0 finish_at_once) w0
          = (0, out, reap 4242 (user (env0 finish_at_once)
                                  (staged_world args0 (env0 finish_at_once) w0 "k3x9" 4242)))) ∧
  (∀ q, q ≠ [] → is_meta q = false →
        files (staged_world args0 (env0 finish_at_once) w0 "k3x9" 4242)
          !! (staging_dir (env0 finish_at_once) "k3x9" ++ q)
        = files w0 !! (target args0 ++ q)) ∧
  repo_at (files (staged_world args0 (env0 finish_at_once) w0 "k3x9" 4242))
          (staging_dir (env0 finish_at_once) "k3x9")
    = Some (base_repo (worktree_files (source args0) (files w0))) ∧
  ∃ out' w',
    run finish_command env_in0 (staged_world args0 (env0 finish_at_once) w0 "k3x9" 4242)
      = (0, out', w') ∧
    session w' = None ∧
    (∀ q, files w' !! (staging_dir (env0 finish_at_once) "k3x9" ++ q) = None) ∧
    (∀ q, q ≠ [] → is_meta q = false →
          files w' !! (output_of args0 ++ q)
          = tracked_node (worktree_files (source args0) (files w0)) q) ∧
    (∀ q c, is_meta q = false →
            (files w' !! (output_of args0 ++ q) = Some (File c)
             ↔ files w0 !! (source args0 ++ q) = Some (File c))) ∧
    (∀ q, is_meta q = true →
          files w' !! (output_of args0 ++ q) = files w0 !! (output_of args0 ++ q)).
Proof.
  apply (start_then_finish args0 (env0 finish_at_once) env_in0 w0 "k3x9" 4242);
    try decide_it.
  split; try decide_it. exists ["a.txt"], "1". decide_it.
Defined.

(** C2, as stated, fails at its second half: source [a.txt] = 1, target
    [a.txt] = 2 and [b.txt] = x, output the source directory.  [merge] with
    [finish] typed at once in the shell ends with status 0; the output then
    holds [a.txt] = 1 and no [b.txt], which is the source and not the
    target. *)
Lemma roundtrip_yields_source :
  files w0 !! (tgt0 ++ ["a.txt"]) = Some (File "2") ∧
  files w0 !! (tgt0 ++ ["b.txt"]) = Some (File "x") ∧
  (run (merge_command args0) (env0 finish_at_once) w0).1.1 = 0 ∧
  files (run (merge_command args0) (env0 finish_at_once) w0).2 !! (src0 ++ ["a.txt"])
    = Some (File "1") ∧
  files (run (merge_command args0) (env0 finish_at_once) w0).2 !! (src0 ++ ["b.txt"]) = None.
Proof. repeat split; decide_it. Qed.

(** What the scenario worlds are: [w_active] is what [merge] leaves when the
    user leaves the shell without [finish]. *)
Lemma w_active_reached : (run (merge_command args0) (env0 id) w0).2 = w_active.
Proof. decide_it. Qed.

(* ===================================================================== *)
(** ** Further behaviour of the commands *)
(* ===================================================================== *)













(** The steps of the commands that do not call [sys.exit]. *)
Lemma ensures_no_exit {A : Type} (env : Env) (P : World → Prop) (m : M A)
    (E : Z → World → Prop) :
  (∀ s c s', m env s ≠ (Exit c, s')) →
  ensures env P m (λ _ _, True) E (λ _ _, True).
Proof.
  intros Hm s _. specialize (Hm s). destruct (m env s) as [[a|c|e] s']; [done| |done].
  by destruct (Hm c s').
Qed.

Ltac no_exit :=
  apply ensures_no_exit; intros ???;
  unfold Path_is_dir, Path_exists, Path_cwd, dict_get, mkdtemp, copytree, rmtree,
    mkdir_parents, subprocess_run, save_session_state, clear_session_state,
    environ_get, Popen, Popen_wait, os_kill, int_of_get, mret, M_ret, raise;
  repeat (first [done | case_match]).

(** One step of a command that ends, if it ends by [sys.exit], with the
    status 1. *)
Ltac exits_1 :=
  lazymatch goal with
  | |- ensures _ _ (print _ ≫= _) _ _ _ => apply ensures_print
  | |- ensures _ _ (eprint _ ≫= _) _ _ _ => apply ensures_eprint
  | |- ensures _ _ (print _) _ _ _ => by apply ensures_print_last
  | |- ensures _ _ (sys_exit 1) _ _ _ => by apply ensures_exit
  | |- ensures _ _ (mret _) _ _ _ => by apply ensures_ret
  | |- ensures _ _ load_session_state _ _ _ => by apply ensures_load_session_state
  | |- ensures _ _ (try_except _ report_and_exit) _ _ _ =>
      apply ensures_try_except with (X' := λ _ _, True);
        [|intros ?; by apply ensures_report_and_exit]
  | |- ensures _ _ (try_except _ _) _ _ _ =>
      apply ensures_try_except with (X' := λ _ _, True);
        [|intros ?; by apply ensures_ret]
  | |- ensures _ _ (if ?b then _ else _) _ _ _ => destruct b
  | |- ensures _ _ (_ ≫= _) _ _ _ =>
      apply ensures_bind with (Q1 := λ _ _, True); [|intros ?]
  | |- ensures _ _ _ _ _ _ => no_exit
  end.

Lemma merge_command_exits (args : MergeArgs) (env : Env) :
  ensures env (λ _, True) (merge_command args) (λ _ _, True) (λ c _, c = 1) (λ _ _, True).
Proof. unfold merge_command. cbv zeta. repeat exits_1. Qed.

Lemma finish_command_exits (env : Env) :
  ensures env (λ _, True) finish_command (λ _ _, True) (λ c _, c = 1) (λ _ _, True).
Proof. unfold finish_command. cbv zeta. repeat exits_1. Qed.

Lemma status_command_exits (env : Env) :
  ensures env (λ _, True) status_command (λ _ _, True) (λ c _, c = 1) (λ _ _, True).
Proof. unfold status_command. cbv zeta. repeat exits_1. Qed.

Lemma run_status_0_or_1 (m : M unit) (env : Env) (w : World) :
  ensures env (λ _, True) m (λ _ _, True) (λ c _, c = 1) (λ _ _, True) →
  (run m env w).1.1 = 0 ∨ (run m env w).1.1 = 1.
Proof.
  intros Hm. specialize (Hm (mkSys w []) I). unfold run.
  destruct (m env (mkSys w [])) as [[a|c|e] s]; simpl; auto.
Qed.







